(** * EskomBillParser: a shallow embedding of [eskombillparser.py]

    The development follows the source file top-down.  Python values that
    the program manipulates are modelled as follows.

    - A [str] is a list of characters ([list ascii]); a character stands for
      the code point of the same number, so the texts covered are those whose
      code points are below 256.
    - A [float] is an IEEE-754 binary64 number, represented by the standard
      library's [spec_float] with precision 53 and maximal exponent 1024.
    - [None], strings and floats that flow through dynamically typed
      parameters are collected in [pyval].
    - Exceptions are values of type [exn]; a computation that may raise and
      may print is a function of the interpreter state in the monad [M]. *)

From Stdlib Require Import ZArith NArith List Ascii String DecimalString Bool Lia.
From Stdlib Require Import Floats.SpecFloat.
Import ListNotations.

Set Implicit Arguments.

(** ** Python strings *)

Module PyStr.

Definition str := list ascii.

Definition code (c : ascii) : N := N_of_ascii c.

(** String literals of the source are written ["..."%string] and turned
    into character lists. *)
Definition lit (s : string) : str := list_ascii_of_string s.

Definition in_range (lo hi : N) (c : ascii) : bool :=
  ((lo <=? code c) && (code c <=? hi))%N.

(** [str.isspace] on one character: the Unicode white space below 256. *)
Definition is_space (c : ascii) : bool :=
  in_range 9 13 c || in_range 28 32 c || (code c =? 133)%N || (code c =? 160)%N.

(** The decimal digits below 256 are the ASCII ones. *)
Definition is_digit (c : ascii) : bool := in_range 48 57 c.

(** [str.isalnum] on one character below 256. *)
Definition is_alnum (c : ascii) : bool :=
  is_digit c || in_range 65 90 c || in_range 97 122 c
  || (code c =? 170)%N || (code c =? 178)%N || (code c =? 179)%N
  || (code c =? 181)%N || (code c =? 185)%N || (code c =? 186)%N
  || in_range 188 190 c || in_range 192 214 c || in_range 216 246 c
  || in_range 248 255 c.

(** [str.lower] on one character below 256. *)
Definition lower (c : ascii) : ascii :=
  if in_range 65 90 c || in_range 192 214 c || in_range 216 222 c
  then ascii_of_N (code c + 32) else c.

Fixpoint lstrip (s : str) : str :=
  match s with
  | c :: s' => if is_space c then lstrip s' else s
  | [] => []
  end.

Definition rstrip (s : str) : str := rev (lstrip (rev s)).

(** [s.strip()] *)
Definition strip (s : str) : str := rstrip (lstrip s).

(** [s.replace(c, '')] for a one-character [c]. *)
Definition remove_char (c : ascii) (s : str) : str :=
  filter (fun x => negb (Ascii.eqb x c)) s.

Definition eqb (a b : str) : bool :=
  if list_eq_dec ascii_dec a b then true else false.

(** [sep.join(parts)] *)
Fixpoint join (sep : str) (parts : list str) : str :=
  match parts with
  | [] => []
  | [p] => p
  | p :: ps => p ++ sep ++ join sep ps
  end.

(** [str(n)] for a non-negative integer. *)
Definition of_nat (n : nat) : str :=
  lit (NilEmpty.string_of_uint (Nat.to_uint n)).

End PyStr.

(** ** Python floats *)

Module PyFloat.
Import PyStr.

Definition prec : Z := 53.
Definition emax : Z := 1024.

Definition float := spec_float.

Definition zero : float := S754_zero false.

Definition mul : float -> float -> float := SFmul prec emax.

(** The binary64 number nearest to [(-1)^neg * digits * 10^exp10], ties to
    even: what a correctly rounded decimal-to-binary conversion returns. *)
Definition of_decimal (neg : bool) (digits : Z) (exp10 : Z) : float :=
  match digits with
  | Zpos _ =>
      if (0 <=? exp10)%Z
      then binary_normalize prec emax
             (cond_Zopp neg (digits * 10 ^ exp10)) 0 neg
      else
        let '(q, e, l) :=
          SFdiv_core_binary prec emax digits 0 (10 ^ (- exp10)) 0 in
        binary_round_aux prec emax neg q e l
  | _ => S754_zero neg
  end.

(** *** [float(s)] for a string [s] *)

(** White space accepted around the number: non-ASCII white space is first
    rewritten to a blank, then C white space is skipped. *)
Definition is_float_space (c : ascii) : bool :=
  in_range 9 13 c || (code c =? 32)%N || (code c =? 133)%N || (code c =? 160)%N.

Fixpoint lstrip_float (s : str) : str :=
  match s with
  | c :: s' => if is_float_space c then lstrip_float s' else s
  | [] => []
  end.

Definition strip_float (s : str) : str :=
  rev (lstrip_float (rev (lstrip_float s))).

Definition underscore : ascii := "_"%char.

(** Underscores may only stand between two digits; they are removed before
    the number is read.  [prev] is the previous character, if any. *)
Fixpoint drop_underscores (prev : option ascii) (s : str) : option str :=
  match s with
  | [] =>
      match prev with
      | Some p => if Ascii.eqb p underscore then None else Some []
      | None => Some []
      end
  | c :: s' =>
      if Ascii.eqb c underscore then
        match prev with
        | Some p => if is_digit p then drop_underscores (Some c) s' else None
        | None => None
        end
      else
        let after_underscore :=
          match prev with
          | Some p => Ascii.eqb p underscore
          | None => false
          end in
        if after_underscore && negb (is_digit c) then None
        else option_map (cons c) (drop_underscores (Some c) s')
  end.

Fixpoint span_digits (s : str) : str * str :=
  match s with
  | c :: s' =>
      if is_digit c then let '(d, r) := span_digits s' in (c :: d, r)
      else ([], s)
  | [] => ([], [])
  end.

Definition digit_value (c : ascii) : Z := Z.of_N (code c) - 48.

Definition decimal_value (ds : str) : Z :=
  fold_left (fun acc c => 10 * acc + digit_value c)%Z ds 0%Z.

Definition read_sign (s : str) : bool * str :=
  match s with
  | c :: s' =>
      if Ascii.eqb c "-"%char then (true, s')
      else if Ascii.eqb c "+"%char then (false, s')
      else (false, s)
  | [] => (false, [])
  end.

(** The optional exponent part; [None] when what follows the mantissa is
    not a well-formed exponent reaching the end of the string. *)
Definition read_exponent (s : str) : option Z :=
  match s with
  | [] => Some 0%Z
  | c :: s' =>
      if Ascii.eqb (lower c) "e"%char then
        let '(neg, s'') := read_sign s' in
        match span_digits s'' with
        | ((_ :: _) as ds, []) => Some (cond_Zopp neg (decimal_value ds))
        | _ => None
        end
      else None
  end.

Definition read_finite (neg : bool) (s : str) : option float :=
  let '(ip, r) := span_digits s in
  let '(fp, r') :=
    match r with
    | c :: r1 => if Ascii.eqb c "."%char then span_digits r1 else ([], r)
    | [] => ([], [])
    end in
  match ip ++ fp with
  | [] => None
  | ds =>
      match read_exponent r' with
      | Some e =>
          Some (of_decimal neg (decimal_value ds)
                  (e - Z.of_nat (List.length fp)))
      | None => None
      end
  end.

Definition read_special (neg : bool) (s : str) : option float :=
  let w := map lower s in
  if PyStr.eqb w (lit "inf") || PyStr.eqb w (lit "infinity")
  then Some (S754_infinity neg)
  else if PyStr.eqb w (lit "nan") then Some S754_nan
  else None.

(** [float(s)]: [None] stands for the [ValueError] the builtin raises. *)
Definition of_str (s : str) : option float :=
  if existsb (fun c => (127 <=? code c)%N && negb (is_float_space c)) s
  then None
  else
    match drop_underscores None s with
    | None => None
    | Some s1 =>
        let '(neg, s2) := read_sign (strip_float s1) in
        match read_finite neg s2 with
        | Some x => Some x
        | None => read_special neg s2
        end
    end.

(** *** [round(x, 2)] *)

(** The integer nearest to [n / d], ties to the even one ([0 < d]). *)
Definition div_nearest_even (n d : Z) : Z :=
  let q := (n / d)%Z in
  match (2 * (n mod d) ?= d)%Z with
  | Lt => q
  | Gt => (q + 1)%Z
  | Eq => if Z.even q then q else (q + 1)%Z
  end.

(** The number of hundredths nearest to the magnitude of a finite float
    with mantissa [m] and exponent [e]. *)
Definition hundredths (m : positive) (e : Z) : Z :=
  if (0 <=? e)%Z then (100 * Zpos m * 2 ^ e)%Z
  else div_nearest_even (100 * Zpos m) (2 ^ (- e)).

(** [round(x, 2)]: the exact value of [x] is rounded to a whole number of
    hundredths, which is converted back to binary64; infinities and NaN
    round to themselves. *)
Definition round2 (x : float) : float :=
  match x with
  | S754_finite s m e => of_decimal s (hundredths m e) (-2)
  | _ => x
  end.

End PyFloat.

(** ** Python's [re] module, for the patterns of the source

    A pattern string is represented by its syntax tree.  The constructors
    cover what the patterns of [eskombillparser.py] use: single-character
    atoms (literals, classes, [\d], [\w], [\s], negated classes), sequences,
    alternatives, optional groups, capturing groups, greedy and lazy
    repetition of a single-character atom, and the anchor [$]. *)

Module Re.
Import PyStr.

Inductive citem : Type :=
| CChar (c : ascii)            (* a literal character *)
| CRange (lo hi : ascii)       (* [lo-hi] *)
| CDigit                       (* \d *)
| CWord                        (* \w *)
| CSpace.                      (* \s *)

(** A single-character atom: a set of items, possibly negated. *)
Record cset : Type := { negated : bool; items : list citem }.

Inductive regex : Type :=
| Eps
| Chr (cs : cset)
| Seq (r1 r2 : regex)
| Alt (r1 r2 : regex)
| Rep (greedy : bool) (lo : nat) (hi : option nat) (cs : cset)
| Grp (n : nat) (r : regex)
| Eos.

(** *** Pattern syntax *)

Definition one (c : ascii) : cset := {| negated := false; items := [CChar c] |}.
Definition cls (l : list citem) : cset := {| negated := false; items := l |}.
Definition ncls (l : list citem) : cset := {| negated := true; items := l |}.

(** A run of literal characters. *)
Fixpoint chars (s : str) : regex :=
  match s with
  | [] => Eps
  | [c] => Chr (one c)
  | c :: s' => Seq (Chr (one c)) (chars s')
  end.

Definition text (s : string) : regex := chars (lit s).

Fixpoint seq (rs : list regex) : regex :=
  match rs with
  | [] => Eps
  | [r] => r
  | r :: rs' => Seq r (seq rs')
  end.

Definition plus (cs : cset) : regex := Rep true 1 None cs.        (* x+  *)
Definition star (cs : cset) : regex := Rep true 0 None cs.        (* x*  *)
Definition plus_lazy (cs : cset) : regex := Rep false 1 None cs.  (* x+? *)
Definition times (n : nat) (cs : cset) : regex := Rep true n (Some n) cs. (* x{n} *)
Definition opt (r : regex) : regex := Alt r Eps.                  (* (?:r)? *)

Definition digit : cset := cls [CDigit].
Definition space : cset := cls [CSpace].
Definition word : cset := cls [CWord].

(** The number of capturing groups of a pattern. *)
Fixpoint ngroups (r : regex) : nat :=
  match r with
  | Seq r1 r2 | Alt r1 r2 => Nat.max (ngroups r1) (ngroups r2)
  | Grp n r' => Nat.max n (ngroups r')
  | _ => 0
  end.

(** *** Matching one character *)

(** The upper-case partner of a lower-case letter, when it lies below 256. *)
Definition upper (c : ascii) : ascii :=
  if in_range 97 122 c || in_range 224 246 c || in_range 248 254 c
  then ascii_of_N (code c - 32) else c.

(** [ic] is the flag [re.IGNORECASE]: literals and ranges are compared
    after case folding, categories are case-blind already. *)
Definition item_match (ic : bool) (it : citem) (x : ascii) : bool :=
  match it with
  | CChar c => if ic then Ascii.eqb (lower x) (lower c) else Ascii.eqb x c
  | CRange lo hi =>
      if ic
      then in_range (code lo) (code hi) (lower x)
           || in_range (code lo) (code hi) (upper (lower x))
      else in_range (code lo) (code hi) x
  | CDigit => is_digit x
  | CWord => is_alnum x || Ascii.eqb x "_"%char
  | CSpace => is_space x
  end.

Definition cset_match (ic : bool) (cs : cset) (x : ascii) : bool :=
  xorb (negated cs) (existsb (fun it => item_match ic it x) (items cs)).

(** [$] without [re.MULTILINE]: the end of the string, or just before a
    newline that ends the string. *)
Definition at_end (s : str) : bool :=
  match s with
  | [] => true
  | [c] => Ascii.eqb c "010"%char
  | _ => false
  end.

(** *** The backtracking matcher *)

(** The text captured by each group, most recent capture first. *)
Definition caps := list (nat * str).

Fixpoint lookup (n : nat) (c : caps) : option str :=
  match c with
  | [] => None
  | (k, w) :: c' => if Nat.eqb k n then Some w else lookup n c'
  end.

Section Matcher.
Variable ic : bool.
Variable R : Type.

(** A continuation receives the text consumed, the rest of the subject
    and the captures so far. *)
Definition cont := str -> str -> caps -> option R.

(** Repetition of a single-character atom between [lo] and [hi] times,
    from the head of [s].  Greedy repetition takes one more character
    first and gives it back when the continuation fails; lazy repetition
    tries the continuation first. *)
Fixpoint rep (greedy : bool) (cs : cset) (lo : nat) (hi : option nat)
         (s : str) (k : str -> str -> option R) {struct s} : option R :=
  let room := match hi with Some O => false | _ => true end in
  if greedy then
    match
      match s with
      | x :: s' =>
          if room && cset_match ic cs x
          then rep greedy cs (Nat.pred lo) (option_map Nat.pred hi) s'
                 (fun w rest => k (x :: w) rest)
          else None
      | [] => None
      end
    with
    | Some res => Some res
    | None => match lo with O => k [] s | S _ => None end
    end
  else
    match match lo with O => k [] s | S _ => None end with
    | Some res => Some res
    | None =>
        match s with
        | x :: s' =>
            if room && cset_match ic cs x
            then rep greedy cs (Nat.pred lo) (option_map Nat.pred hi) s'
                   (fun w rest => k (x :: w) rest)
            else None
        | [] => None
        end
    end.

Fixpoint run (r : regex) (s : str) (c : caps) (k : cont) : option R :=
  match r with
  | Eps => k [] s c
  | Chr cs =>
      match s with
      | x :: s' => if cset_match ic cs x then k [x] s' c else None
      | [] => None
      end
  | Seq r1 r2 =>
      run r1 s c (fun w1 s1 c1 =>
        run r2 s1 c1 (fun w2 s2 c2 => k (w1 ++ w2) s2 c2))
  | Alt r1 r2 =>
      match run r1 s c k with
      | Some res => Some res
      | None => run r2 s c k
      end
  | Rep greedy lo hi cs => rep greedy cs lo hi s (fun w rest => k w rest c)
  | Grp n r' => run r' s c (fun w s' c' => k w s' ((n, w) :: c'))
  | Eos => if at_end s then k [] s c else None
  end.
End Matcher.

(** *** Match objects and [re.search] *)

Record match_obj : Type :=
  { m_start : nat;        (* m.start() *)
    m_whole : str;        (* m.group(0) *)
    m_caps : caps;
    m_ngroups : nat }.

Definition match_at (ic : bool) (r : regex) (s : str) : option (str * caps) :=
  run ic r s [] (fun w _ c => Some (w, c)).

(** [re.search]: the first position of the subject, from the left, at
    which the pattern matches. *)
Fixpoint search_from (ic : bool) (r : regex) (pos : nat) (s : str)
  : option match_obj :=
  match match_at ic r s with
  | Some (w, c) =>
      Some {| m_start := pos; m_whole := w; m_caps := c;
              m_ngroups := ngroups r |}
  | None =>
      match s with
      | [] => None
      | _ :: s' => search_from ic r (S pos) s'
      end
  end.

Definition search (ic : bool) (r : regex) (s : str) : option match_obj :=
  search_from ic r 0 s.

(** *** What it means for a pattern to match

    [Matches ic r w rest c c']: the pattern can consume [w] when [rest]
    follows it in the subject, and doing so turns the captures [c] into
    [c'].  This is the declarative reading of a pattern, without
    priorities between alternatives. *)
Inductive Matches (ic : bool) : regex -> str -> str -> caps -> caps -> Prop :=
| MEps rest c : Matches ic Eps [] rest c c
| MChr cs x rest c :
    cset_match ic cs x = true -> Matches ic (Chr cs) [x] rest c c
| MSeq r1 r2 w1 w2 rest c c1 c2 :
    Matches ic r1 w1 (w2 ++ rest) c c1 -> Matches ic r2 w2 rest c1 c2 ->
    Matches ic (Seq r1 r2) (w1 ++ w2) rest c c2
| MAltL r1 r2 w rest c c' :
    Matches ic r1 w rest c c' -> Matches ic (Alt r1 r2) w rest c c'
| MAltR r1 r2 w rest c c' :
    Matches ic r2 w rest c c' -> Matches ic (Alt r1 r2) w rest c c'
| MRep greedy lo hi cs w rest c :
    forallb (cset_match ic cs) w = true ->
    lo <= List.length w ->
    (forall h, hi = Some h -> List.length w <= h) ->
    Matches ic (Rep greedy lo hi cs) w rest c c
| MGrp n r w rest c c' :
    Matches ic r w rest c c' -> Matches ic (Grp n r) w rest c ((n, w) :: c')
| MEos rest c : at_end rest = true -> Matches ic Eos [] rest c c.

(** The pattern matches at the head of [s]. *)
Definition matches_at (ic : bool) (r : regex) (s : str) : Prop :=
  exists w rest c, s = w ++ rest /\ Matches ic r w rest [] c.

(** The pattern matches nowhere in [s]. *)
Definition no_match (ic : bool) (r : regex) (s : str) : Prop :=
  forall pre suf, s = pre ++ suf -> ~ matches_at ic r suf.

(** Group [g] is assigned on every path through the pattern. *)
Fixpoint assigns (g : nat) (r : regex) : bool :=
  match r with
  | Seq r1 r2 => assigns g r1 || assigns g r2
  | Alt r1 r2 => assigns g r1 && assigns g r2
  | Grp n r' => Nat.eqb n g || assigns g r'
  | _ => false
  end.

End Re.

(** ** The patterns of the source

    Each definition is the syntax tree of the pattern string quoted above
    it. *)

Module Patterns.
Import PyStr Re.

(** [r'YOUR ACCOUNT NO\s+(\d+)'] *)
Definition account_number : regex :=
  seq [text "YOUR ACCOUNT NO"; plus space; Grp 1 (plus digit)].

(** [\d{4}-\d{2}-\d{2}] *)
Definition iso_date : regex :=
  seq [times 4 digit; text "-"; times 2 digit; text "-"; times 2 digit].

(** [r'BILLING DATE\s+(\d{4}-\d{2}-\d{2})'] *)
Definition billing_date : regex :=
  seq [text "BILLING DATE"; plus space; Grp 1 iso_date].

(** [r'TAX INVOICE NO\s+(\d+)'] *)
Definition invoice_number : regex :=
  seq [text "TAX INVOICE NO"; plus space; Grp 1 (plus digit)].

(** [r'ACCOUNT MONTH\s+([A-Z]+ \d{4})'] *)
Definition account_month : regex :=
  seq [text "ACCOUNT MONTH"; plus space;
       Grp 1 (seq [plus (cls [CRange "A" "Z"]); text " "; times 4 digit])].

(** [r'(?:CURRENT )?DUE DATE\s+(\d{4}-\d{2}-\d{2})'] *)
Definition due_date : regex :=
  seq [opt (text "CURRENT "); text "DUE DATE"; plus space; Grp 1 iso_date].

(** [[\w,\s&]] *)
Definition name_char : cset := cls [CWord; CChar ","; CSpace; CChar "&"].

(** [r'NAME\s+([\w,\s&]+)'] *)
Definition customer_name : regex :=
  seq [text "NAME"; plus space; Grp 1 (plus name_char)].

(** [([\d,.]+|-)] *)
Definition reading : regex :=
  Grp 1 (Alt (plus (cls [CDigit; CChar ","; CChar "."])) (text "-")).

(** [label[^\d]+([\d,.]+|-)] *)
Definition labelled_reading (label : string) : regex :=
  seq [text label; plus (ncls [CDigit]); reading].

(** [r'Opening Reading[^\d]+([\d,.]+|-)'] *)
Definition opening_reading : regex := labelled_reading "Opening Reading".

(** [r'Closing Reading[^\d]+([\d,.]+|-)'] *)
Definition closing_reading : regex := labelled_reading "Closing Reading".

(** [r'TOTAL ENERGY CONSUMED[^\d]+([\d,.]+|-)'] *)
Definition consumption : regex := labelled_reading "TOTAL ENERGY CONSUMED".

(** [[\d,.-]] *)
Definition amount_char : cset :=
  cls [CDigit; CChar ","; CChar "."; CChar "-"].

(** [r'TOTAL AMOUNT DUE\s+R\s+([\d,.-]+)(?:CR)?'] *)
Definition total_due : regex :=
  seq [text "TOTAL AMOUNT DUE"; plus space; text "R"; plus space;
       Grp 1 (plus amount_char); opt (text "CR")].

(** [r'Network Capacity Charge[^\d]+([\d,.]+|-)'] *)
Definition network_charge : regex := labelled_reading "Network Capacity Charge".

(** [r'Energy Charge[^\d]+([\d,.]+|-)'] *)
Definition energy_charge : regex := labelled_reading "Energy Charge".

(** [r'NAME\s+([\w,\s&]+?)(?:\s*FAX|\s*$)'] *)
Definition clean_name : regex :=
  seq [text "NAME"; plus space; Grp 1 (plus_lazy name_char);
       Alt (Seq (star space) (text "FAX")) (Seq (star space) Eos)].

(** [r'TOTAL ENERGY CONSUMED[^\d]+([\d,.]+)'] *)
Definition bill_consumption : regex :=
  seq [text "TOTAL ENERGY CONSUMED"; plus (ncls [CDigit]);
       Grp 1 (plus (cls [CDigit; CChar ","; CChar "."]))].

(** [r'Network Capacity Charge @ R([\d.]+) per day'] *)
Definition network_rate : regex :=
  seq [text "Network Capacity Charge @ R";
       Grp 1 (plus (cls [CDigit; CChar "."])); text " per day"].

(** [r'TOTAL CHARGES FOR BILLING PERIOD\s+R\s+([\d,.-]+)'] *)
Definition total_charges : regex :=
  seq [text "TOTAL CHARGES FOR BILLING PERIOD"; plus space; text "R";
       plus space; Grp 1 (plus amount_char)].

(** [r'READING TYPE:\s+(\w+)'] *)
Definition reading_type : regex :=
  seq [text "READING TYPE:"; plus space; Grp 1 (plus word)].

End Patterns.

(** ** Values, exceptions and effects *)

Module Py.
Import PyStr.

(** The exception classes that occur; all of them derive from
    [Exception]. *)
Inductive exc_class : Type :=
| ValueError
| TypeError
| AttributeError
| IndexError
| PermissionError
| OtherError (class_name : str).

(** An exception with its message, [str(e)]. *)
Record exn : Type := { exc_cls : exc_class; exc_msg : str }.

Definition is_ValueError (e : exn) : bool :=
  match exc_cls e with ValueError => true | _ => false end.

(** A bare [except:] and [except Exception] accept every exception
    modelled here. *)
Definition any_Exception (e : exn) : bool := true.

(** [None], a [str] or a [float]. *)
Inductive pyval : Type :=
| VNone
| VStr (s : str)
| VFloat (x : PyFloat.float).

Definition of_option (o : option str) : pyval :=
  match o with Some s => VStr s | None => VNone end.

Definition of_float_option (o : option PyFloat.float) : pyval :=
  match o with Some x => VFloat x | None => VNone end.

(** A [dict] with string keys, in insertion order. *)
Definition dict := list (str * pyval).

Fixpoint dict_get (k : str) (d : dict) : option pyval :=
  match d with
  | [] => None
  | (k', v) :: d' => if PyStr.eqb k' k then Some v else dict_get k d'
  end.

Definition keys (d : dict) : list str := map fst d.

(** *** Code without side effects: it returns or raises *)

Inductive outcome (A : Type) : Type :=
| Ret (a : A)
| Raise (e : exn).
Arguments Ret {A} a.
Arguments Raise {A} e.

(** *** Code with side effects

    What the program can observe and change: the processor's record list
    [self.data], the lines printed so far, the files written so far (most
    recent first) and the paths that cannot be written. *)
Record world : Type :=
  { data : list dict;
    stdout : list str;
    files : list (str * str);
    locked : list str }.

Definition M (A : Type) : Type := world -> outcome A * world.

Class Monad (m : Type -> Type) : Type :=
  { ret : forall {A}, A -> m A;
    bind : forall {A B}, m A -> (A -> m B) -> m B;
    raise : forall {A}, exn -> m A;
    (** [try: body  except <classes accepted by handles> as e: handler e] *)
    try_except : forall {A}, m A -> (exn -> bool) -> (exn -> m A) -> m A }.

#[export] Instance outcome_monad : Monad outcome :=
  { ret := fun A a => Ret a;
    bind := fun A B c f =>
      match c with Ret a => f a | Raise e => Raise e end;
    raise := fun A e => Raise e;
    try_except := fun A body handles handler =>
      match body with
      | Ret a => Ret a
      | Raise e => if handles e then handler e else Raise e
      end }.

#[export] Instance M_monad : Monad M :=
  { ret := fun A a w => (Ret a, w);
    bind := fun A B c f w =>
      match c w with
      | (Ret a, w') => f a w'
      | (Raise e, w') => (Raise e, w')
      end;
    raise := fun A e w => (Raise e, w);
    try_except := fun A body handles handler w =>
      match body w with
      | (Ret a, w') => (Ret a, w')
      | (Raise e, w') => if handles e then handler e w' else (Raise e, w')
      end }.

(** A call of side-effect-free code from code with side effects. *)
Definition lift {A} (c : outcome A) : M A := fun w => (c, w).

Definition add_lines (lines : list str) (w : world) : world :=
  {| data := data w; stdout := stdout w ++ lines;
     files := files w; locked := locked w |}.

Definition print (line : str) : M unit :=
  fun w => (Ret tt, add_lines [line] w).

Definition add_record (d : dict) (w : world) : world :=
  {| data := data w ++ [d]; stdout := stdout w;
     files := files w; locked := locked w |}.

(** [self.data.append(d)] *)
Definition data_append (d : dict) : M unit :=
  fun w => (Ret tt, add_record d w).

Definition get_data : M (list dict) := fun w => (Ret (data w), w).

(** Writing a file replaces what the path held; a locked path raises. *)
Definition write_file (path content : str) : M unit :=
  fun w =>
    if existsb (PyStr.eqb path) (locked w)
    then (Raise {| exc_cls := PermissionError;
                   exc_msg := lit "[Errno 13] Permission denied: '"
                              ++ path ++ lit "'" |}, w)
    else (Ret tt,
          {| data := data w; stdout := stdout w;
             files := (path, content)
                        :: filter (fun f => negb (PyStr.eqb (fst f) path))
                             (files w);
             locked := locked w |}).

Definition read_file (path : str) (w : world) : option str :=
  match find (fun f => PyStr.eqb (fst f) path) (files w) with
  | Some f => Some (snd f)
  | None => None
  end.

End Py.

Declare Scope py_scope.
Delimit Scope py_scope with py.
Notation "x <- c ;; k" := (Py.bind c (fun x => k))
  (at level 61, c at next level, right associativity) : py_scope.
Notation "c ;;; k" := (Py.bind c (fun _ => k))
  (at level 61, right associativity) : py_scope.

(** ** Builtins and library calls that raise *)

Module Builtins.
Import PyStr Py.
Local Open Scope py_scope.

(** [float(v)] *)
Definition float_ (v : pyval) : outcome PyFloat.float :=
  match v with
  | VFloat x => Ret x
  | VStr s =>
      match PyFloat.of_str s with
      | Some x => Ret x
      | None =>
          Raise {| exc_cls := ValueError;
                   exc_msg := lit "could not convert string to float" |}
      end
  | VNone =>
      Raise {| exc_cls := TypeError;
               exc_msg := lit "float() argument must be a string or a real number, not 'NoneType'" |}
  end.

(** [m.group(n)] *)
Definition group (m : Re.match_obj) (n : nat) : outcome (option str) :=
  if Nat.leb n (Re.m_ngroups m)
  then Ret (match n with
            | O => Some (Re.m_whole m)
            | _ => Re.lookup n (Re.m_caps m)
            end)
  else Raise {| exc_cls := IndexError; exc_msg := lit "no such group" |}.

(** [g.strip()] where [g] is what [m.group] returned *)
Definition strip_ (g : option str) : outcome str :=
  match g with
  | Some s => Ret (strip s)
  | None =>
      Raise {| exc_cls := AttributeError;
               exc_msg := lit "'NoneType' object has no attribute 'strip'" |}
  end.

(** [g.replace(',', '')] where [g] is what [m.group] returned *)
Definition remove_commas_ (g : option str) : outcome str :=
  match g with
  | Some s => Ret (remove_char ","%char s)
  | None =>
      Raise {| exc_cls := AttributeError;
               exc_msg := lit "'NoneType' object has no attribute 'replace'" |}
  end.

(** The items of a [join] must all be strings; [i] is the index of the
    first item of the list. *)
Fixpoint check_strs (i : nat) (items : list (option str)) : outcome (list str) :=
  match items with
  | [] => Ret []
  | Some s :: rest => l <- check_strs (S i) rest ;; ret (s :: l)
  | None :: _ =>
      Raise {| exc_cls := TypeError;
               exc_msg := lit "sequence item " ++ of_nat i
                          ++ lit ": expected str instance, NoneType found" |}
  end.

(** [sep.join(items)] *)
Definition join_ (sep : str) (items : list (option str)) : outcome str :=
  l <- check_strs 0 items ;; ret (join sep l).

End Builtins.

(** ** [os.path] and [datetime] *)

Module Os.
Import PyStr.

(** [s.rfind(c)] when the search starts at index [i] of the whole string;
    [-1] when [c] does not occur. *)
Fixpoint rfind_from (c : ascii) (s : str) (i : Z) : Z :=
  match s with
  | [] => (-1)%Z
  | x :: s' =>
      let later := rfind_from c s' (i + 1)%Z in
      if (0 <=? later)%Z then later
      else if Ascii.eqb x c then i else (-1)%Z
  end.

Definition rfind (c : ascii) (s : str) : Z := rfind_from c s 0%Z.

(** [p[a:b]] for [0 <= a <= b]. *)
Definition slice (p : str) (a b : Z) : str :=
  firstn (Z.to_nat (b - a)) (skipn (Z.to_nat a) p).

(** [os.path.splitext] (POSIX): the extension starts at the last dot of
    the last path component, provided some character other than a dot
    precedes it in that component. *)
Definition splitext (p : str) : str * str :=
  let sepIndex := rfind "/"%char p in
  let dotIndex := rfind "."%char p in
  if (sepIndex <? dotIndex)%Z
     && existsb (fun x => negb (Ascii.eqb x "."%char))
          (slice p (sepIndex + 1) dotIndex)
  then (firstn (Z.to_nat dotIndex) p, skipn (Z.to_nat dotIndex) p)
  else (p, []).

(** [os.path.join(a, b)] (POSIX) for a relative [b]. *)
Definition join (a b : str) : str :=
  match rev a with
  | [] => b
  | c :: _ => if Ascii.eqb c "/"%char then a ++ b else a ++ lit "/" ++ b
  end.

(** What [datetime.now()] returns, to the second. *)
Record datetime : Type :=
  { year : nat; month : nat; day : nat;
    hour : nat; minute : nat; second : nat }.

(** A number printed in at least [width] digits, zero-padded. *)
Definition zfill (width n : nat) : str :=
  let s := of_nat n in
  repeat "0"%char (width - List.length s) ++ s.

(** [t.strftime("%Y%m%d_%H%M%S")] *)
Definition strftime (t : datetime) : str :=
  zfill 4 (year t) ++ zfill 2 (month t) ++ zfill 2 (day t) ++ lit "_"
  ++ zfill 2 (hour t) ++ zfill 2 (minute t) ++ zfill 2 (second t).

End Os.

(** ** What [pdfplumber] yields for a file *)

Module Pdf.
Import PyStr Py.
Local Open Scope py_scope.

(** [page.extract_text()] returns a string or [None], or raises. *)
Inductive page : Type :=
| Text (t : option str)
| PageError (e : exn).

(** [pdfplumber.open(path)] raises, or gives the pages of the document. *)
Inductive pdf : Type :=
| Unreadable (e : exn)
| Document (pages : list page).

(** An entry of the directory listing: [str(pdf_path)], [pdf_path.name]
    and what opening the file gives. *)
Record pdf_file : Type := { path : str; name : str; content : pdf }.

Definition open_ (f : pdf_file) : outcome (list page) :=
  match content f with
  | Unreadable e => Raise e
  | Document pages => Ret pages
  end.

Definition extract_text (p : page) : outcome (option str) :=
  match p with
  | Text t => Ret t
  | PageError e => Raise e
  end.

(** The generator [page.extract_text() for page in pdf.pages], run to its
    end. *)
Fixpoint extract_all (pages : list page) : outcome (list (option str)) :=
  match pages with
  | [] => Ret []
  | p :: rest =>
      t <- extract_text p ;; ts <- extract_all rest ;; ret (t :: ts)
  end.

End Pdf.

(** ** The class [EskomBillProcessor] *)

Module EskomBillProcessor.
Import PyStr Py Builtins Pdf.
Local Open Scope py_scope.

(** [__init__]: [self.data = []] *)
Definition init : M unit :=
  fun w => (Ret tt, {| data := []; stdout := stdout w;
                       files := files w; locked := locked w |}).

(** [extract_value(self, text, pattern)] *)
Definition extract_value (text : str) (pattern : Re.regex) : outcome (option str) :=
  match Re.search true pattern text with
  | Some m => g <- group m 1 ;; s <- strip_ g ;; ret (Some s)
  | None => ret None
  end.

Definition conversion_warning (value : str) : str :=
  lit "Warning: Could not convert '" ++ value ++ lit "' to number, using 0".

(** [clean_numeric_value(self, value)] *)
Definition clean_numeric_value (value : pyval) : M PyFloat.float :=
  match value with
  | VNone => ret PyFloat.zero
  | VStr s =>
      if PyStr.eqb s (lit "-") || PyStr.eqb s (lit "") then ret PyFloat.zero
      else
        try_except
          (lift (float_ (VStr (remove_char ","%char s))))
          is_ValueError
          (fun _ => print (conversion_warning s) ;;; ret PyFloat.zero)
  | VFloat _ =>
      raise {| exc_cls := AttributeError;
               exc_msg := lit "'float' object has no attribute 'replace'" |}
  end.

(** [clean_customer_name(self, text)] *)
Definition clean_customer_name (text : str) : outcome (option str) :=
  match Re.search true Patterns.clean_name text with
  | Some m => g <- group m 1 ;; s <- strip_ g ;; ret (Some s)
  | None => ret None
  end.

(** The literal [0.15]. *)
Definition vat_rate : PyFloat.float := PyFloat.of_decimal false 15 (-2).

(** [calculate_vat(self, total_charges)] *)
Definition calculate_vat (total_charges : pyval) : outcome (option PyFloat.float) :=
  try_except
    (x <- float_ total_charges ;;
     ret (Some (PyFloat.round2 (PyFloat.mul x vat_rate))))
    any_Exception
    (fun _ => ret None).

(** [float(m.group(1).replace(',', '')) if m else None], and the same
    without the [replace] when [commas] is false. *)
Definition float_of_match (commas : bool) (m : option Re.match_obj) : outcome pyval :=
  match m with
  | Some mt =>
      g <- group mt 1 ;;
      s <- (if commas then remove_commas_ g
            else match g with
                 | Some s => ret s
                 | None =>
                     raise {| exc_cls := TypeError;
                              exc_msg := lit "float() argument must be a string or a real number, not 'NoneType'" |}
                 end) ;;
      x <- float_ (VStr s) ;;
      ret (VFloat x)
  | None => ret VNone
  end.

(** [extract_bill_data(self, text)] *)
Definition extract_bill_data (text : str) : outcome dict :=
  account_number <- extract_value text Patterns.account_number ;;
  billing_date <- extract_value text Patterns.billing_date ;;
  invoice_number <- extract_value text Patterns.invoice_number ;;
  account_month <- extract_value text Patterns.account_month ;;
  customer_name <- clean_customer_name text ;;
  consumption <-
    float_of_match true (Re.search false Patterns.bill_consumption text) ;;
  network_rate <-
    float_of_match false (Re.search false Patterns.network_rate text) ;;
  total_charges <- extract_value text Patterns.total_charges ;;
  charges <-
    match total_charges with
    | Some ((_ :: _) as s) =>
        x <- float_ (VStr (remove_char ","%char s)) ;;
        vat_amount <- calculate_vat (VFloat x) ;;
        ret (VFloat x, of_float_option vat_amount)
    | _ => ret (of_option total_charges, VNone)
    end ;;
  reading_type <- extract_value text Patterns.reading_type ;;
  ret [ (lit "account_number", of_option account_number);
        (lit "billing_date", of_option billing_date);
        (lit "invoice_number", of_option invoice_number);
        (lit "account_month", of_option account_month);
        (lit "customer_name", of_option customer_name);
        (lit "consumption", consumption);
        (lit "network_rate", network_rate);
        (lit "total_charges", fst charges);
        (lit "vat_amount", snd charges);
        (lit "reading_type", of_option reading_type) ].

(** One numeric entry of the dictionary of [process_pdf]:
    [self.clean_numeric_value(self.extract_value(text, pattern))] *)
Definition numeric_entry (text : str) (pattern : Re.regex) : M PyFloat.float :=
  raw <- lift (extract_value text pattern) ;;
  clean_numeric_value (of_option raw).

(** The dictionary [data] that [process_pdf] builds from the text. *)
Definition raw_values (text : str) : M dict :=
  account_number <- lift (extract_value text Patterns.account_number) ;;
  billing_date <- lift (extract_value text Patterns.billing_date) ;;
  invoice_number <- lift (extract_value text Patterns.invoice_number) ;;
  account_month <- lift (extract_value text Patterns.account_month) ;;
  due_date <- lift (extract_value text Patterns.due_date) ;;
  customer_name <- lift (extract_value text Patterns.customer_name) ;;
  opening_reading <- numeric_entry text Patterns.opening_reading ;;
  closing_reading <- numeric_entry text Patterns.closing_reading ;;
  consumption <- numeric_entry text Patterns.consumption ;;
  total_due <- numeric_entry text Patterns.total_due ;;
  network_charge <- numeric_entry text Patterns.network_charge ;;
  energy_charge <- numeric_entry text Patterns.energy_charge ;;
  ret [ (lit "account_number", of_option account_number);
        (lit "billing_date", of_option billing_date);
        (lit "invoice_number", of_option invoice_number);
        (lit "account_month", of_option account_month);
        (lit "due_date", of_option due_date);
        (lit "customer_name", of_option customer_name);
        (lit "opening_reading", VFloat opening_reading);
        (lit "closing_reading", VFloat closing_reading);
        (lit "consumption", VFloat consumption);
        (lit "total_due", VFloat total_due);
        (lit "network_charge", VFloat network_charge);
        (lit "energy_charge", VFloat energy_charge) ].

(** ["\n".join(page.extract_text() for page in pdf.pages)] on the opened
    file *)
Definition read_text (pdf_path : pdf_file) : outcome str :=
  pages <- open_ pdf_path ;;
  texts <- extract_all pages ;;
  join_ ["010"%char] texts.

Definition processing_error (pdf_path : pdf_file) (e : exn) : str :=
  lit "Error processing " ++ path pdf_path ++ lit ": " ++ exc_msg e.

(** [process_pdf(self, pdf_path)] *)
Definition process_pdf (pdf_path : pdf_file) : M bool :=
  try_except
    (text <- lift (read_text pdf_path) ;;
     d <- raw_values text ;;
     data_append d ;;;
     ret true)
    any_Exception
    (fun e => print (processing_error pdf_path e) ;;; ret false).

Section Exporter.
(** The text that pandas writes for the record list: the frame
    [pd.DataFrame(self.data)] with its numeric columns coerced, as
    rendered by [df.to_csv(index=False, float_format='%.2f')]. *)
Variable frame_to_csv : list dict -> str.

(** The name of the file an export at time [now] writes. *)
Definition output_path (base_output_path : str) (now : Os.datetime) : str :=
  let timestamp := Os.strftime now in
  let '(file_name, file_ext) := Os.splitext base_output_path in
  file_name ++ lit "_" ++ timestamp ++ file_ext.

(** [export_to_csv(self, base_output_path)]; [now] is what
    [datetime.now()] returns during the call. *)
Definition export_to_csv (base_output_path : str) (now : Os.datetime) : M bool :=
  records <- get_data ;;
  match records with
  | [] => print (lit "No data to export") ;;; ret false
  | _ :: _ =>
      let output_path := output_path base_output_path now in
      try_except
        (write_file output_path (frame_to_csv records) ;;;
         print (lit "Data exported to: " ++ output_path) ;;;
         ret true)
        any_Exception
        (fun e => print (lit "Error exporting data: " ++ exc_msg e) ;;; ret false)
  end.
End Exporter.

(** The loop of [process_directory] over the files the glob yields; it
    returns the final value of [success_count]. *)
Fixpoint process_files (pdf_files : list pdf_file) (success_count : nat) : M nat :=
  match pdf_files with
  | [] => ret success_count
  | pdf_path :: rest =>
      ok <- process_pdf pdf_path ;;
      if ok : bool then
        print (lit "Successfully processed: " ++ name pdf_path) ;;;
        process_files rest (S success_count)
      else process_files rest success_count
  end.

Definition summary (success_count : nat) : str :=
  if Nat.eqb success_count 0
  then lit "No PDF files were successfully processed"
  else lit "Successfully processed " ++ of_nat success_count ++ lit " PDF files".

(** [process_directory(self, directory)]; [pdf_files] is what
    [Path(directory).glob('*.pdf')] yields. *)
Definition process_directory (pdf_files : list pdf_file) : M unit :=
  success_count <- process_files pdf_files 0 ;;
  print (summary success_count).

(** [main()], after the directory prompt: [listing] is [None] when
    [pdf_dir] is not a directory, else the PDF files found in it. *)
Definition main (frame_to_csv : list dict -> str) (pdf_dir : str)
           (listing : option (list pdf_file)) (now : Os.datetime) : M unit :=
  init ;;;
  match listing with
  | None => print (lit "Invalid directory path!")
  | Some pdf_files =>
      process_directory pdf_files ;;;
      export_to_csv frame_to_csv
        (Os.join pdf_dir (lit "eskom_bills_processed.csv")) now ;;;
      ret tt
  end.

End EskomBillProcessor.

(** ** Vocabulary for the statements

    The definitions below are not part of the program.  They name what the
    statements about the program talk about. *)

Module Spec.
Import PyStr Py Builtins Pdf EskomBillProcessor.

(** The fields of the BillRecord data model, as the specification lists
    them. *)
Definition bill_record_fields : list str :=
  map lit [ "account_number"; "invoice_number"; "billing_date"; "due_date";
            "account_month"; "customer_name"; "opening_reading";
            "closing_reading"; "consumption"; "network_charge";
            "energy_charge"; "total_due"; "reading_type" ]%string.

(** The keys of the dictionary literal of [process_pdf], in its order. *)
Definition record_keys : list str :=
  map lit [ "account_number"; "billing_date"; "invoice_number";
            "account_month"; "due_date"; "customer_name";
            "opening_reading"; "closing_reading"; "consumption";
            "total_due"; "network_charge"; "energy_charge" ]%string.

(** The textual entries of that dictionary with their patterns. *)
Definition textual_fields : list (str * Re.regex) :=
  [ (lit "account_number", Patterns.account_number);
    (lit "billing_date", Patterns.billing_date);
    (lit "invoice_number", Patterns.invoice_number);
    (lit "account_month", Patterns.account_month);
    (lit "due_date", Patterns.due_date);
    (lit "customer_name", Patterns.customer_name) ].

(** The numeric entries of that dictionary with their patterns. *)
Definition numeric_fields : list (str * Re.regex) :=
  [ (lit "opening_reading", Patterns.opening_reading);
    (lit "closing_reading", Patterns.closing_reading);
    (lit "consumption", Patterns.consumption);
    (lit "total_due", Patterns.total_due);
    (lit "network_charge", Patterns.network_charge);
    (lit "energy_charge", Patterns.energy_charge) ].

(** Every pattern the source hands to [extract_value]. *)
Definition labelled_patterns : list Re.regex :=
  map snd textual_fields ++ map snd numeric_fields
  ++ [Patterns.total_charges; Patterns.reading_type].

(** What [extract_value] returns for a pattern whose first group takes
    part in every match: the stripped first group of the leftmost match. *)
Definition field_text (pattern : Re.regex) (text : str) : option str :=
  match Re.search true pattern text with
  | Some m => option_map strip (Re.lookup 1 (Re.m_caps m))
  | None => None
  end.

(** The raw string is one of the three spellings of "no value". *)
Definition is_blank (s : str) : bool :=
  PyStr.eqb s (lit "-") || PyStr.eqb s (lit "").

(** The number a raw string stands for once its commas are removed, if
    any. *)
Definition parse_number (s : str) : option PyFloat.float :=
  PyFloat.of_str (remove_char ","%char s).

(** The result of numeric normalization as a function of the raw input. *)
Definition number_of (raw : option str) : PyFloat.float :=
  match raw with
  | None => PyFloat.zero
  | Some s =>
      if is_blank s then PyFloat.zero
      else match parse_number s with
           | Some x => x
           | None => PyFloat.zero
           end
  end.

(** The warnings numeric normalization prints for the raw input. *)
Definition warnings_of (raw : option str) : list str :=
  match raw with
  | None => []
  | Some s =>
      if is_blank s then []
      else match parse_number s with
           | Some _ => []
           | None => [conversion_warning s]
           end
  end.

(** The record of a document as a function of its text. *)
Definition record_of (text : str) : dict :=
  map (fun f => (fst f, of_option (field_text (snd f) text))) textual_fields
  ++ map (fun f => (fst f, VFloat (number_of (field_text (snd f) text))))
       numeric_fields.

(** The warnings printed while the record of a document is built. *)
Definition warnings (text : str) : list str :=
  flat_map (fun f => warnings_of (field_text (snd f) text)) numeric_fields.

(** A document is processable when its text can be read. *)
Definition processable (f : pdf_file) : bool :=
  match read_text f with Ret _ => true | Raise _ => false end.

(** The records a document contributes to the batch. *)
Definition doc_records (f : pdf_file) : list dict :=
  match read_text f with
  | Ret text => [record_of text]
  | Raise _ => []
  end.

(** The lines printed while a document is handled by the batch. *)
Definition doc_lines (f : pdf_file) : list str :=
  match read_text f with
  | Ret text => warnings text ++ [lit "Successfully processed: " ++ name f]
  | Raise e => [processing_error f e]
  end.

(** The float a value is interpreted as by [float], if any. *)
Definition as_number (v : pyval) : option PyFloat.float :=
  match v with
  | VFloat x => Some x
  | VStr s => PyFloat.of_str s
  | VNone => None
  end.

(** [r] is [y] rounded to two decimal places: the binary64 number nearest
    to a whole number of hundredths that lies within half a hundredth of
    [y]; infinities and NaN are left as they are. *)
Definition two_decimals (y r : PyFloat.float) : Prop :=
  match y with
  | S754_finite s m e =>
      exists n : Z,
        r = PyFloat.of_decimal s n (-2) /\
        if (0 <=? e)%Z then n = (100 * (Zpos m * 2 ^ e))%Z
        else (Z.abs (2 * (100 * Zpos m) - 2 * n * 2 ^ (- e)) <= 2 ^ (- e))%Z
  | _ => r = y
  end.

(** Case-blind comparison of a character with a letter. *)
Definition same_letter (x c : ascii) : bool := Ascii.eqb (lower x) (lower c).

(** A NAME label starts [s]: the letters of "NAME" in any case, followed
    by white space. *)
Definition name_label_at (s : str) : bool :=
  match s with
  | c1 :: c2 :: c3 :: c4 :: c5 :: _ =>
      same_letter c1 "N" && same_letter c2 "A" && same_letter c3 "M"
      && same_letter c4 "E" && is_space c5
  | _ => false
  end.

(** No white space at either end. *)
Definition trimmed (s : str) : bool :=
  match s with
  | [] => true
  | c :: _ => negb (is_space c) && negb (is_space (last s c))
  end.

(** A world in which nothing has happened yet. *)
Definition empty_world : world :=
  {| data := []; stdout := []; files := []; locked := [] |}.

End Spec.

(** ** Sample inputs *)

Module Samples.
Import PyStr Py Pdf.
(** A one-page bill and what [pdfplumber] can make of it. *)
Definition bill_text : str :=
  lit "YOUR ACCOUNT NO 5513790215 BILLING DATE 2024-01-15 NAME J SMITH & CO FAX 011 Opening Reading: 1,234.50 Closing Reading: n/a 1.2.3 READING TYPE: Actual".

Definition good (n : string) : pdf_file :=
  {| path := lit "bills/" ++ lit n; name := lit n;
     content := Document [Text (Some bill_text)] |}.

Definition corrupt : pdf_file :=
  {| path := lit "bills/corrupt.pdf"; name := lit "corrupt.pdf";
     content := Unreadable {| exc_cls := OtherError (lit "PDFSyntaxError");
                              exc_msg := lit "No /Root object! - Is this really a PDF?" |} |}.

(** A scanned page in the middle of a document yields no text. *)
Definition scanned : pdf_file :=
  {| path := lit "bills/scan.pdf"; name := lit "scan.pdf";
     content := Document [Text (Some bill_text); Text None;
                          Text (Some bill_text)] |}.

Definition noon : Os.datetime :=
  {| Os.year := 2024; Os.month := 1; Os.day := 15;
     Os.hour := 12; Os.minute := 0; Os.second := 0 |}.
End Samples.

Module TwoRuns.
Import PyStr Py Pdf EskomBillProcessor.
(** Two runs of the program whose exports fall in the same second. *)
Definition run (frame_to_csv : list dict -> str) (fs : list pdf_file)
           (w : world) : world :=
  snd (main frame_to_csv (lit "bills") (Some fs) Samples.noon w).
End TwoRuns.

(** * Notions used to state further properties *)

Import PyStr Py Builtins Pdf EskomBillProcessor Spec.

Module Clock.
Import Os.

(** A clock reading that [datetime.now()] can return, with a year of four
    digits: there [%Y] prints four digits on every platform. *)
Definition valid (t : datetime) : bool :=
  (10 * 100 <=? year t) && (year t <? 100 * 100)
  && (1 <=? month t) && (month t <=? 12)
  && (1 <=? day t) && (day t <=? 31)
  && (hour t <=? 23) && (minute t <=? 59) && (second t <=? 59).

(** The number a string of decimal digits spells. *)
Definition digits_value (s : str) : N :=
  fold_left (fun acc c => 10 * acc + (N_of_ascii c - 48))%N s 0%N.

End Clock.

Module Path.
(** Any character but the full stop. *)
Definition not_dot (x : ascii) : bool := negb (Ascii.eqb x "."%char).
End Path.

Module Chars.
(** The 256 characters of the model. *)
Definition all_chars : list ascii := map ascii_of_nat (seq 0 256).
End Chars.

Module Fs.
(** The path can be written in this world. *)
Definition writable (path : str) (w : world) : bool :=
  negb (existsb (PyStr.eqb path) (locked w)).

(** The files after [path] has been written with [content]. *)
Definition written (path content : str) (fs : list (str * str)) : list (str * str) :=
  (path, content) :: filter (fun f => negb (PyStr.eqb (fst f) path)) fs.

(** The name [main] gives its export inside [pdf_dir]. *)
Definition export_name (now : Os.datetime) : str :=
  lit "eskom_bills_processed_" ++ Os.strftime now ++ lit ".csv".
End Fs.

Module ReSyntax.
Import Re.

(** The sub-patterns enclosed by the groups numbered [g]. *)
Fixpoint bodies (g : nat) (r : regex) : list regex :=
  match r with
  | Seq r1 r2 | Alt r1 r2 => bodies g r1 ++ bodies g r2
  | Grp n r' => (if Nat.eqb n g then [r'] else []) ++ bodies g r'
  | _ => []
  end.

(** The single-character atoms of a pattern. *)
Fixpoint atoms (r : regex) : list cset :=
  match r with
  | Chr cs => [cs]
  | Rep _ _ _ cs => [cs]
  | Seq r1 r2 | Alt r1 r2 => atoms r1 ++ atoms r2
  | Grp _ r' => atoms r'
  | _ => []
  end.

(** The least number of characters a match of the pattern consumes. *)
Fixpoint min_len (r : regex) : nat :=
  match r with
  | Chr _ => 1
  | Rep _ lo _ _ => lo
  | Seq r1 r2 => min_len r1 + min_len r2
  | Alt r1 r2 => Nat.min (min_len r1) (min_len r2)
  | Grp _ r' => min_len r'
  | _ => 0
  end.

(** Some atom of the pattern accepts the character. *)
Definition accepted (ic : bool) (r : regex) (x : ascii) : bool :=
  existsb (fun cs => cset_match ic cs x) (atoms r).

End ReSyntax.

Module FloatSign.
Definition is_nan (x : PyFloat.float) : bool :=
  match x with S754_nan => true | _ => false end.

(** The sign bit of a float that is not NaN. *)
Definition sign_bit (x : PyFloat.float) : bool :=
  match x with
  | S754_zero s | S754_infinity s | S754_finite s _ _ => s
  | S754_nan => false
  end.

(** [x] is a number (not NaN) with sign bit [s]. *)
Definition signed (s : bool) (x : PyFloat.float) : Prop :=
  is_nan x = false /\ sign_bit x = s.
End FloatSign.

Module Amount.
(** The characters of an amount once its commas are removed. *)
Definition amount_char (x : ascii) : bool :=
  is_digit x || Ascii.eqb x "."%char || Ascii.eqb x "-"%char.

(** The characters of a reading once its commas are removed. *)
Definition reading_char (x : ascii) : bool :=
  is_digit x || Ascii.eqb x "."%char.

Definition starts_with_minus (s : str) : bool :=
  match s with c :: _ => Ascii.eqb c "-"%char | [] => false end.

(** [[\d,.]] and [[\d,.-]] under [re.IGNORECASE]. *)
Definition reading_class : Re.cset :=
  Re.cls [Re.CDigit; Re.CChar ","; Re.CChar "."].
End Amount.

Module BillData.
(** The keys of the dictionary [extract_bill_data] returns, in its order. *)
Definition keys : list str :=
  map lit [ "account_number"; "billing_date"; "invoice_number";
            "account_month"; "customer_name"; "consumption"; "network_rate";
            "total_charges"; "vat_amount"; "reading_type" ]%string.

(** The string a number is read from: the capture, without its commas when
    [commas] is set. *)
Definition number_text (commas : bool) (g : str) : str :=
  if commas then remove_char ","%char g else g.

Definition not_a_number : exn :=
  {| exc_cls := ValueError; exc_msg := lit "could not convert string to float" |}.

(** The outcome is a value or an uncaught [ValueError]. *)
Definition value_or_ValueError {A} (o : outcome A) : Prop :=
  (exists a, o = Ret a) \/ (exists e, o = Raise e /\ exc_cls e = ValueError).
End BillData.

Module Case.
(** Two strings that differ at most in the case of their letters. *)
Definition same_up_to_case (s s' : str) : Prop :=
  Forall2 (fun x y => lower x = lower y) s s'.
End Case.

Module NameStop.
Import Re.

(** The end of the customer-name pattern: [(?:\s*FAX|\s*$)]. *)
Definition name_stop : regex :=
  Alt (Seq (star space) (text "FAX")) (Seq (star space) Eos).

(** The name stops before [s]: after optional white space comes FAX, in any
    case, or the end of the input. *)
Definition stops_before (s : str) : Prop :=
  exists sp t,
    s = sp ++ t /\ forallb is_space sp = true /\
    (map lower (firstn 3 t) = lit "fax" \/ at_end t = true).
End NameStop.

Module Greedy.
(** Nothing of the class follows: [s] is empty or starts with a character
    the class rejects. *)
Definition ends_run (cs : Re.cset) (s : str) : bool :=
  match s with
  | [] => true
  | x :: _ => negb (Re.cset_match true cs x)
  end.

(** An ASCII letter. *)
Definition is_letter (x : ascii) : bool :=
  in_range 65 90 x || in_range 97 122 x.
End Greedy.

(** * Verification *)

Unset Implicit Arguments.

Import PyStr Py Builtins Pdf EskomBillProcessor Spec.

(** * Facts about the matcher *)

Module ReFacts.
Import PyStr Re.

Section Rep.
Variable ic : bool.
Variable R : Type.

Definition room (hi : option nat) : bool :=
  match hi with Some O => false | _ => true end.

(** A successful repetition either stops here or takes one more
    character. *)
Lemma rep_cases greedy cs lo hi s (k : str -> str -> option R) res :
  rep ic greedy cs lo hi s k = Some res ->
  (lo = 0 /\ k [] s = Some res)
  \/ (exists x s', s = x :: s' /\ room hi = true /\
        cset_match ic cs x = true /\
        rep ic greedy cs (Nat.pred lo) (option_map Nat.pred hi) s'
          (fun w rest => k (x :: w) rest) = Some res).
Proof.
  intros H. destruct s as [|x s']; destruct greedy; simpl in H.
  - destruct lo; [left; auto | discriminate].
  - destruct lo; [|discriminate].
    destruct (k [] []) eqn:E; [left; auto | discriminate].
  - fold (room hi) in H.
    destruct (room hi && cset_match ic cs x) eqn:E.
    + apply andb_true_iff in E as [E1 E2].
      destruct (rep ic true cs (Nat.pred lo) (option_map Nat.pred hi) s' _) eqn:E3.
      * right. exists x, s'. inversion H; subst. auto.
      * destruct lo; [left; auto | discriminate].
    + destruct lo; [left; auto | discriminate].
  - fold (room hi) in H.
    destruct lo.
    + destruct (k [] (x :: s')) eqn:E0; [left; auto|].
      destruct (room hi && cset_match ic cs x) eqn:E; [|discriminate].
      apply andb_true_iff in E as [E1 E2].
      right. exists x, s'. auto.
    + destruct (room hi && cset_match ic cs x) eqn:E; [|discriminate].
      apply andb_true_iff in E as [E1 E2].
      right. exists x, s'. auto.
Qed.

Lemma rep_stop greedy cs hi s (k : str -> str -> option R) :
  k [] s <> None -> rep ic greedy cs 0 hi s k <> None.
Proof.
  intros H. destruct s as [|x s']; destruct greedy; simpl; auto.
  - destruct (k [] []); congruence.
  - destruct (_ && _); auto.
    destruct (rep ic true cs _ _ s' _); congruence.
  - destruct (k [] (x :: s')); congruence.
Qed.

Lemma rep_more greedy cs lo hi x s' (k : str -> str -> option R) :
  room hi = true -> cset_match ic cs x = true ->
  rep ic greedy cs (Nat.pred lo) (option_map Nat.pred hi) s'
    (fun w rest => k (x :: w) rest) <> None ->
  rep ic greedy cs lo hi (x :: s') k <> None.
Proof.
  intros Hr Hx H. destruct greedy; simpl; fold (room hi); rewrite Hr, Hx; simpl.
  - destruct (rep ic true cs _ _ s' _); congruence.
  - destruct lo; auto. destruct (k [] (x :: s')); congruence.
Qed.

(** What a repetition consumes when it succeeds. *)
Lemma rep_sound greedy cs s : forall lo hi (k : str -> str -> option R) res,
  rep ic greedy cs lo hi s k = Some res ->
  exists w rest,
    s = w ++ rest /\ forallb (cset_match ic cs) w = true /\
    lo <= List.length w /\ (forall h, hi = Some h -> List.length w <= h) /\
    k w rest = Some res.
Proof.
  induction s as [|x s' IH]; intros lo hi k res H;
    apply rep_cases in H as [[-> H] | (y & t & E & Hr & Hy & H)].
  - exists [], []. simpl. repeat split; auto; intros; lia.
  - discriminate.
  - exists [], (x :: s'). simpl. repeat split; auto; intros; lia.
  - inversion E; subst y t; clear E.
    apply IH in H as (w & rest & -> & Hw & Hlo & Hhi & Hk).
    exists (x :: w), rest. simpl. rewrite Hy, Hw.
    repeat split; auto; try lia.
    intros h ->. destruct h; [discriminate|].
    specialize (Hhi h eq_refl). lia.
Qed.

(** A repetition succeeds whenever some admissible number of characters
    leads to a continuation that succeeds. *)
Lemma rep_complete greedy cs w : forall rest lo hi (k : str -> str -> option R),
  forallb (cset_match ic cs) w = true ->
  lo <= List.length w -> (forall h, hi = Some h -> List.length w <= h) ->
  k w rest <> None ->
  rep ic greedy cs lo hi (w ++ rest) k <> None.
Proof.
  induction w as [|x w IH]; intros rest lo hi k Hw Hlo Hhi Hk; simpl in *.
  - assert (lo = 0) by lia. subst. now apply rep_stop.
  - apply andb_true_iff in Hw as [Hx Hw].
    apply rep_more; auto.
    + destruct hi as [[|h]|]; auto. specialize (Hhi 0 eq_refl). lia.
    + apply IH; auto; try lia.
      intros h E. destruct hi as [h'|]; [|discriminate].
      simpl in E. inversion E; subst. specialize (Hhi h' eq_refl). lia.
Qed.
End Rep.

(** Captures are only added, and a group that the pattern assigns on
    every path is set after a match. *)
Lemma matches_caps ic r w rest c c' :
  Matches ic r w rest c c' ->
  (forall g, lookup g c <> None -> lookup g c' <> None)
  /\ (forall g, assigns g r = true -> lookup g c' <> None).
Proof.
  induction 1; simpl; try (split; [auto | discriminate]).
  - destruct IHMatches1 as [K1 A1], IHMatches2 as [K2 A2].
    split; [auto|]. intros g Hg. apply orb_true_iff in Hg as [Hg|Hg]; auto.
  - destruct IHMatches as [K A]. split; [auto|].
    intros g Hg. apply andb_true_iff in Hg as [Hg _]. auto.
  - destruct IHMatches as [K A]. split; [auto|].
    intros g Hg. apply andb_true_iff in Hg as [_ Hg]. auto.
  - destruct IHMatches as [K A]. split.
    + intros g Hg. destruct (Nat.eqb n g); [discriminate | auto].
    + intros g Hg. destruct (Nat.eqb n g); [discriminate | auto].
Qed.

Lemma assigns_ngroups g r : assigns g r = true -> g <= ngroups r.
Proof.
  induction r; simpl; try discriminate; intros H.
  - apply orb_true_iff in H as [H|H]; [apply IHr1 in H | apply IHr2 in H]; lia.
  - apply andb_true_iff in H as [H _]. apply IHr1 in H. lia.
  - apply orb_true_iff in H as [H|H].
    + apply Nat.eqb_eq in H. lia.
    + apply IHr in H. lia.
Qed.

(** Soundness of the matcher: when it succeeds, it has consumed a word
    that the pattern matches, and handed it to the continuation. *)
Lemma run_sound ic R r : forall s c (k : cont R) res,
  run ic r s c k = Some res ->
  exists w rest c',
    s = w ++ rest /\ Matches ic r w rest c c' /\ k w rest c' = Some res.
Proof.
  induction r; intros s c k res H; simpl in H.
  - exists [], s, c. repeat split; auto. constructor.
  - destruct s as [|x s']; [discriminate|].
    destruct (cset_match ic cs x) eqn:E; [|discriminate].
    exists [x], s', c. repeat split; auto. now constructor.
  - apply IHr1 in H as (w1 & rest1 & c1 & -> & M1 & H).
    apply IHr2 in H as (w2 & rest2 & c2 & -> & M2 & H).
    exists (w1 ++ w2), rest2, c2. rewrite app_assoc.
    repeat split; auto. econstructor; eauto.
  - destruct (run ic r1 s c k) eqn:E.
    + inversion H; subst. apply IHr1 in E as (w & rest & c' & -> & M & E).
      exists w, rest, c'. repeat split; auto. now apply MAltL.
    + apply IHr2 in H as (w & rest & c' & -> & M & H).
      exists w, rest, c'. repeat split; auto. now apply MAltR.
  - apply ReFacts.rep_sound in H as (w & rest & -> & Hw & Hlo & Hhi & H).
    exists w, rest, c. repeat split; auto. now constructor.
  - apply IHr in H as (w & rest & c' & -> & M & H).
    exists w, rest, ((n, w) :: c'). repeat split; auto. now constructor.
  - destruct (at_end s) eqn:E; [|discriminate].
    exists [], s, c. repeat split; auto. now constructor.
Qed.

(** Completeness of the matcher: it succeeds whenever the pattern matches
    some word after which the continuation succeeds. *)
Lemma run_complete ic R r w rest c c' :
  Matches ic r w rest c c' ->
  forall c0 (k : cont R),
    (forall c'', k w rest c'' <> None) ->
    run ic r (w ++ rest) c0 k <> None.
Proof.
  induction 1; intros c0 k Hk; simpl.
  - apply Hk.
  - rewrite H. apply Hk.
  - rewrite <- app_assoc. apply IHMatches1. intros c''.
    apply IHMatches2. intros c3. apply Hk.
  - specialize (IHMatches c0 k Hk).
    destruct (run ic r1 (w ++ rest) c0 k); congruence.
  - specialize (IHMatches c0 k Hk).
    destruct (run ic r1 (w ++ rest) c0 k); congruence.
  - apply ReFacts.rep_complete; auto.
  - apply IHMatches. intros c''. apply Hk.
  - rewrite H. apply Hk.
Qed.

Lemma match_at_sound ic r s w c :
  match_at ic r s = Some (w, c) ->
  exists rest, s = w ++ rest /\ Matches ic r w rest [] c.
Proof.
  unfold match_at. intros H.
  apply run_sound in H as (w' & rest & c' & -> & M & H).
  inversion H; subst. eauto.
Qed.

Lemma match_at_none ic r s :
  match_at ic r s = None -> ~ matches_at ic r s.
Proof.
  unfold match_at. intros H (w & rest & c & -> & M).
  revert H. eapply run_complete; eauto. discriminate.
Qed.

(** [re.search] returns the leftmost match. *)
Lemma search_from_some ic r s : forall pos m,
  search_from ic r pos s = Some m ->
  exists pre rest,
    s = pre ++ m_whole m ++ rest /\
    m_start m = pos + List.length pre /\
    Matches ic r (m_whole m) rest [] (m_caps m) /\
    m_ngroups m = ngroups r /\
    (forall pre' suf, s = pre' ++ suf ->
       List.length pre' < List.length pre -> ~ matches_at ic r suf).
Proof.
  induction s as [|x s IH]; intros pos m H; simpl in H.
  - destruct (match_at ic r []) as [[w c]|] eqn:E; [|discriminate].
    inversion H; subst; simpl. clear H.
    apply match_at_sound in E as (rest & E & M).
    exists [], rest. simpl. repeat split; auto. intros; lia.
  - destruct (match_at ic r (x :: s)) as [[w c]|] eqn:E.
    + inversion H; subst; simpl. clear H.
      apply match_at_sound in E as (rest & E & M).
      exists [], rest. simpl. repeat split; auto. intros; lia.
    + apply IH in H as (pre & rest & -> & Hs & M & Hn & Hleft).
      exists (x :: pre), rest. simpl. repeat split; auto; try lia.
      intros pre' suf E' Hlen. destruct pre' as [|y pre']; simpl in *.
      * subst suf. now apply match_at_none.
      * inversion E'; subst. apply (Hleft pre' suf); auto. lia.
Qed.

Lemma search_from_none ic r s : forall pos,
  search_from ic r pos s = None -> no_match ic r s.
Proof.
  induction s as [|x s IH]; intros pos H pre suf E; simpl in H.
  - destruct (match_at ic r []) as [[w c]|] eqn:E0; [discriminate|].
    destruct pre; [|discriminate]. simpl in E. subst. now apply match_at_none.
  - destruct (match_at ic r (x :: s)) as [[w c]|] eqn:E0; [discriminate|].
    destruct pre as [|y pre]; simpl in E.
    + subst. now apply match_at_none.
    + inversion E; subst. eapply IH; eauto.
Qed.
End ReFacts.

Module NormalizerFacts.
Import PyStr Py Builtins EskomBillProcessor.

Lemma div_nearest_even_close n d :
  (0 < d)%Z -> (Z.abs (2 * n - 2 * PyFloat.div_nearest_even n d * d) <= d)%Z.
Proof.
  intros Hd. unfold PyFloat.div_nearest_even. cbv zeta.
  pose proof (Z.div_mod n d ltac:(lia)) as E.
  pose proof (Z.mod_pos_bound n d Hd) as B.
  generalize dependent (n / d)%Z. generalize dependent (n mod d)%Z.
  intros r B q E. subst n.
  replace (2 * (d * q + r) - 2 * q * d)%Z with (2 * r)%Z by ring.
  replace (2 * (d * q + r) - 2 * (q + 1) * d)%Z with (2 * r - 2 * d)%Z by ring.
  destruct (Z.compare_spec (2 * r) d) as [C|C|C].
  - destruct (Z.even q); lia.
  - lia.
  - lia.
Qed.

Lemma hundredths_close m e :
  (e < 0)%Z ->
  (Z.abs (2 * (100 * Zpos m) - 2 * PyFloat.hundredths m e * 2 ^ (- e))
   <= 2 ^ (- e))%Z.
Proof.
  intros He. unfold PyFloat.hundredths.
  destruct (0 <=? e)%Z eqn:E; [apply Z.leb_le in E; lia|].
  apply div_nearest_even_close. apply Z.pow_pos_nonneg; lia.
Qed.

Lemma hundredths_exact m e :
  (0 <= e)%Z -> PyFloat.hundredths m e = (100 * (Zpos m * 2 ^ e))%Z.
Proof.
  intros He. unfold PyFloat.hundredths.
  destruct (0 <=? e)%Z eqn:E; [lia | apply Z.leb_gt in E; lia].
Qed.

Example vat_rate_value :
  vat_rate = S754_finite false 5404319552844595 (-55).
Proof. vm_compute. reflexivity. Qed.

Example vat_1000 : calculate_vat (VStr (lit "1000"))
                   = Ret (Some (S754_finite false 5277655813324800 (-45))).
Proof. vm_compute. reflexivity. Qed.

Lemma clean_numeric_value_str s w :
  PyStr.eqb s (lit "-") || PyStr.eqb s (lit "") = false ->
  clean_numeric_value (VStr s) w =
    match PyFloat.of_str (remove_char ","%char s) with
    | Some x => (Ret x, w)
    | None => (Ret PyFloat.zero, add_lines [conversion_warning s] w)
    end.
Proof.
  intros H. unfold clean_numeric_value. rewrite H.
  unfold try_except, M_monad, lift, float_.
  destruct (PyFloat.of_str _); reflexivity.
Qed.
End NormalizerFacts.

Module ExtractFacts.
Import PyStr Py Builtins Pdf EskomBillProcessor Spec.

(** The match object of a pattern that always assigns group 1 has that
    group. *)
Lemma search_group1 ic r text m :
  Re.assigns 1 r = true -> Re.search ic r text = Some m ->
  Nat.leb 1 (Re.m_ngroups m) = true /\ exists g, Re.lookup 1 (Re.m_caps m) = Some g.
Proof.
  intros Ha Hs. apply ReFacts.search_from_some in Hs
    as (pre & rest & _ & _ & M & Hn & _).
  split.
  - rewrite Hn. apply Nat.leb_le. now apply ReFacts.assigns_ngroups.
  - apply ReFacts.matches_caps in M as [_ A]. specialize (A 1 Ha).
    destruct (Re.lookup 1 (Re.m_caps m)); [eauto | congruence].
Qed.

Lemma extract_value_assigned text pattern :
  Re.assigns 1 pattern = true ->
  extract_value text pattern = Ret (field_text pattern text).
Proof.
  intros Ha. unfold extract_value, field_text.
  destruct (Re.search true pattern text) as [m|] eqn:Hs; [|reflexivity].
  destruct (search_group1 _ _ _ _ Ha Hs) as [Hn [g Hg]].
  unfold group. rewrite Hn, Hg. reflexivity.
Qed.

Lemma labelled_patterns_assign :
  forallb (Re.assigns 1) labelled_patterns = true.
Proof. reflexivity. Qed.

Lemma field_text_none pattern text :
  Re.assigns 1 pattern = true ->
  (field_text pattern text = None <-> Re.no_match true pattern text).
Proof.
  intros Ha. unfold field_text. split.
  - destruct (Re.search true pattern text) as [m|] eqn:Hs.
    + destruct (search_group1 _ _ _ _ Ha Hs) as [_ [g Hg]]. rewrite Hg. discriminate.
    + intros _. eapply ReFacts.search_from_none; eauto.
  - intros Hn. destruct (Re.search true pattern text) as [m|] eqn:Hs; [|reflexivity].
    exfalso. apply ReFacts.search_from_some in Hs
      as (pre & rest & E & _ & M & _ & _).
    apply (Hn pre (Re.m_whole m ++ rest) E). red. eauto.
Qed.
End ExtractFacts.




Module RunFacts.
Import PyStr Py Builtins Pdf EskomBillProcessor Spec.
Local Open Scope py_scope.

Lemma eqb_eq (a b : str) : PyStr.eqb a b = true <-> a = b.
Proof.
  unfold PyStr.eqb. destruct (list_eq_dec ascii_dec a b); split; congruence.
Qed.

Lemma is_blank_spec s : is_blank s = true <-> s = lit "-" \/ s = lit "".
Proof.
  unfold is_blank. rewrite orb_true_iff, !eqb_eq. tauto.
Qed.

Lemma bind_run {A B} (c : M A) (k : A -> M B) w a w' :
  c w = (Ret a, w') -> bind c k w = k a w'.
Proof. intros H. simpl. now rewrite H. Qed.

Lemma bind_lift {A B} (a : A) (k : A -> M B) w :
  bind (lift (Ret a)) k w = k a w.
Proof. reflexivity. Qed.

Lemma add_lines_nil w : add_lines [] w = w.
Proof. destruct w. unfold add_lines. simpl. now rewrite app_nil_r. Qed.

Lemma add_lines_app a b w : add_lines b (add_lines a w) = add_lines (a ++ b) w.
Proof. unfold add_lines. simpl. now rewrite app_assoc. Qed.

(** Numeric normalization as a function of the raw input. *)
Lemma clean_numeric_value_run raw w :
  clean_numeric_value (of_option raw) w
  = (Ret (number_of raw), add_lines (warnings_of raw) w).
Proof.
  destruct raw as [s|]; [|simpl; now rewrite add_lines_nil].
  unfold of_option, clean_numeric_value, number_of, warnings_of, is_blank,
    parse_number.
  destruct (PyStr.eqb s (lit "-") || PyStr.eqb s (lit "")) eqn:E.
  - now rewrite add_lines_nil.
  - unfold float_.
    destruct (PyFloat.of_str (remove_char ","%char s)); simpl;
      [now rewrite add_lines_nil | reflexivity].
Qed.

Lemma numeric_entry_run text pattern w :
  Re.assigns 1 pattern = true ->
  numeric_entry text pattern w
  = (Ret (number_of (field_text pattern text)),
     add_lines (warnings_of (field_text pattern text)) w).
Proof.
  intros Ha. unfold numeric_entry.
  rewrite (ExtractFacts.extract_value_assigned _ _ Ha), bind_lift.
  apply clean_numeric_value_run.
Qed.

(** Building the record never raises; it yields [record_of text] and
    prints [warnings text]. *)
Lemma raw_values_run text w :
  raw_values text w = (Ret (record_of text), add_lines (warnings text) w).
Proof.
  unfold raw_values.
  rewrite !ExtractFacts.extract_value_assigned by reflexivity.
  rewrite !bind_lift.
  repeat (erewrite bind_run by (apply numeric_entry_run; reflexivity)).
  rewrite !add_lines_app. unfold warnings, numeric_fields. simpl flat_map.
  rewrite ?app_nil_r, <- ?app_assoc. reflexivity.
Qed.

(** One document: a record is appended exactly when its text can be
    read. *)
Lemma process_pdf_run f w :
  process_pdf f w =
    match read_text f with
    | Ret text =>
        (Ret true, add_record (record_of text) (add_lines (warnings text) w))
    | Raise e => (Ret false, add_lines [processing_error f e] w)
    end.
Proof.
  unfold process_pdf. destruct (read_text f) as [text|e]; simpl.
  - rewrite raw_values_run. reflexivity.
  - reflexivity.
Qed.

Lemma process_files_cons f fs n w :
  process_files (f :: fs) n w =
    process_files fs (if processable f then S n else n)
      {| data := data w ++ doc_records f;
         stdout := stdout w ++ doc_lines f;
         files := files w; locked := locked w |}.
Proof.
  cbn [process_files]. unfold processable, doc_records, doc_lines.
  pose proof (process_pdf_run f w) as H.
  destruct (read_text f) as [t|e]; erewrite bind_run by exact H.
  - unfold print, add_lines, add_record. simpl.
    rewrite <- app_assoc. reflexivity.
  - unfold add_lines. simpl. rewrite app_nil_r. reflexivity.
Qed.

(** The loop over the files. *)
Lemma process_files_run fs : forall n w,
  process_files fs n w =
    (Ret (n + List.length (filter processable fs)),
     {| data := data w ++ flat_map doc_records fs;
        stdout := stdout w ++ flat_map doc_lines fs;
        files := files w; locked := locked w |}).
Proof.
  induction fs as [|f fs IH]; intros n w.
  - simpl. rewrite Nat.add_0_r, !app_nil_r. now destruct w.
  - rewrite process_files_cons, IH. cbn [filter flat_map data stdout files locked].
    rewrite <- !app_assoc. f_equal. f_equal.
    destruct (processable f); simpl; lia.
Qed.

Lemma process_directory_run fs w :
  process_directory fs w =
    (Ret tt,
     {| data := data w ++ flat_map doc_records fs;
        stdout := stdout w ++ flat_map doc_lines fs
                  ++ [summary (List.length (filter processable fs))];
        files := files w; locked := locked w |}).
Proof.
  unfold process_directory. erewrite bind_run by apply process_files_run.
  unfold print, add_lines. simpl. now rewrite <- app_assoc.
Qed.

Lemma doc_records_length fs :
  List.length (flat_map doc_records fs) = List.length (filter processable fs).
Proof.
  induction fs as [|f fs IH]; [reflexivity|].
  cbn [flat_map filter]. rewrite length_app, IH.
  assert (E : List.length (doc_records f) = if processable f then 1 else 0)
    by (unfold doc_records, processable; destruct (read_text f); reflexivity).
  rewrite E. destruct (processable f); simpl; lia.
Qed.
End RunFacts.




Module RecordFacts.

Lemma record_keys_nodup : NoDup record_keys.
Proof.
  assert (E : nodup (list_eq_dec ascii_dec) record_keys = record_keys)
    by (vm_compute; reflexivity).
  rewrite <- E. apply NoDup_nodup.
Qed.

Lemma keys_record_of text : keys (record_of text) = record_keys.
Proof. reflexivity. Qed.

Lemma get_textual text k p :
  In (k, p) textual_fields ->
  dict_get k (record_of text) = Some (of_option (field_text p text)).
Proof.
  unfold textual_fields. simpl In.
  intros H. repeat destruct H as [H|H]; try contradiction;
    inversion H; subst; reflexivity.
Qed.

Lemma get_numeric text k p :
  In (k, p) numeric_fields ->
  dict_get k (record_of text) = Some (VFloat (number_of (field_text p text))).
Proof.
  unfold numeric_fields. simpl In.
  intros H. repeat destruct H as [H|H]; try contradiction;
    inversion H; subst; reflexivity.
Qed.

Lemma get_reading_type text :
  dict_get (lit "reading_type") (record_of text) = None.
Proof. reflexivity. Qed.

Lemma fields_assign k p :
  In (k, p) textual_fields \/ In (k, p) numeric_fields ->
  Re.assigns 1 p = true.
Proof.
  unfold textual_fields, numeric_fields. simpl In.
  intros [H|H]; repeat destruct H as [H|H]; try contradiction;
    inversion H; subst; reflexivity.
Qed.
End RecordFacts.



(** C1 (as amended). Every record that per-document processing appends has
    exactly one entry for each of the twelve keys account_number,
    billing_date, invoice_number, account_month, due_date, customer_name,
    opening_reading, closing_reading, consumption, total_due, network_charge
    and energy_charge, and none for reading_type; a textual entry whose
    pattern matches nowhere in the text is null, and a numeric entry whose
    pattern matches nowhere, or whose extracted string cannot be read as a
    number, is 0.0. *)
Theorem process_pdf_record_entries (f : pdf_file) (w w' : world) :
  process_pdf f w = (Ret true, w') ->
  exists text d,
    read_text f = Ret text /\
    data w' = data w ++ [d] /\
    keys d = record_keys /\ NoDup (keys d) /\
    dict_get (lit "reading_type") d = None /\
    (forall k p, In (k, p) textual_fields ->
       Re.no_match true p text -> dict_get k d = Some VNone) /\
    (forall k p, In (k, p) numeric_fields ->
       Re.no_match true p text
       \/ (exists s, field_text p text = Some s /\ parse_number s = None) ->
       dict_get k d = Some (VFloat PyFloat.zero)).
Proof.
  rewrite RunFacts.process_pdf_run.
  destruct (read_text f) as [text|e]; [|discriminate].
  intros H. inversion H; subst w'; clear H.
  exists text, (record_of text). repeat split.
  - apply RecordFacts.record_keys_nodup.
  - intros k p Hin Hno. rewrite (RecordFacts.get_textual text k p Hin).
    apply ExtractFacts.field_text_none in Hno.
    + now rewrite Hno.
    + apply (RecordFacts.fields_assign k). auto.
  - intros k p Hin Hcase. rewrite (RecordFacts.get_numeric text k p Hin).
    destruct Hcase as [Hno | (s & Hs & Hp)].
    + apply ExtractFacts.field_text_none in Hno.
      * now rewrite Hno.
      * apply (RecordFacts.fields_assign k). auto.
    + rewrite Hs. unfold number_of. rewrite Hp.
      now destruct (is_blank s).
Qed.

Lemma process_pdf_record_entries_witness :
  exists d,
    data (snd (process_pdf (Samples.good "jan.pdf") empty_world)) = [d] /\
    dict_get (lit "due_date") d = Some VNone /\
    dict_get (lit "closing_reading") d = Some (VFloat PyFloat.zero).
Proof.
  destruct (process_pdf_record_entries (Samples.good "jan.pdf") empty_world
              (snd (process_pdf (Samples.good "jan.pdf") empty_world)))
    as (text & d & Ht & Hd & _ & _ & _ & Htext & Hnum).
  - vm_compute. reflexivity.
  - exists d. split; [exact Hd|].
    assert (E : text = Samples.bill_text)
      by (vm_compute in Ht; inversion Ht; reflexivity).
    subst text. split.
    + apply (Htext _ Patterns.due_date).
      * do 4 right. left. reflexivity.
      * eapply ReFacts.search_from_none with (pos := 0). vm_compute. reflexivity.
    + apply (Hnum _ Patterns.closing_reading).
      * right. left. reflexivity.
      * right. exists (lit "1.2.3"). split; vm_compute; reflexivity.
Defined.

(** C1 as stated fails: the record of a processed document has no entry for
    the BillRecord field reading_type, even when the text names a reading
    type. *)
Lemma process_pdf_record_lacks_reading_type :
  ~ (forall f w',
       process_pdf f empty_world = (Ret true, w') ->
       forall d k, In d (data w') -> In k bill_record_fields ->
                   dict_get k d <> None).
Proof.
  intros H.
  pose (w' := snd (process_pdf (Samples.good "jan.pdf") empty_world)).
  assert (E : process_pdf (Samples.good "jan.pdf") empty_world = (Ret true, w'))
    by (vm_compute; reflexivity).
  apply (H _ _ E (record_of Samples.bill_text) (lit "reading_type")).
  - vm_compute. left. reflexivity.
  - vm_compute. do 12 right. left. reflexivity.
  - reflexivity.
Qed.

Module ReadFacts.
(** A list of items with a [None] in it cannot be joined. *)
Lemma check_strs_none items : forall i,
  In None items -> exists e, check_strs i items = Raise e.
Proof.
  induction items as [|[s|] items IH]; intros i H; simpl in *.
  - contradiction.
  - destruct H as [H|H]; [discriminate|].
    destruct (IH (S i) H) as [e E]. rewrite E. eauto.
  - eauto.
Qed.

(** Running the page generator either raises or yields one item per page,
    a page without text giving [None]. *)
Lemma extract_all_none pages :
  In (Text None) pages ->
  (exists e, extract_all pages = Raise e)
  \/ (exists ts, extract_all pages = Ret ts /\ In None ts).
Proof.
  induction pages as [|p pages IH]; intros H; simpl in *; [contradiction|].
  destruct H as [->|H].
  - simpl. destruct (extract_all pages) as [ts|e]; simpl; eauto.
    right. exists (None :: ts). simpl. auto.
  - destruct p as [t|e]; simpl; eauto.
    destruct (IH H) as [[e E] | (ts & E & Hin)]; rewrite E; simpl; eauto.
    right. exists (t :: ts). simpl. auto.
Qed.

Lemma read_text_page_without_text f pages :
  content f = Document pages -> In (Text None) pages ->
  exists e, read_text f = Raise e.
Proof.
  intros Hc Hin. unfold read_text, open_. rewrite Hc. simpl.
  destruct (extract_all_none pages Hin) as [[e E] | (ts & E & Hn)];
    rewrite E; simpl; eauto.
  unfold join_. destruct (check_strs_none ts 0 Hn) as [e E']. rewrite E'.
  simpl. eauto.
Qed.
End ReadFacts.



(** C9. Per-document processing never raises, and when it reports failure
    the record list (and the files) are exactly what they were before the
    document was attempted. *)
Theorem process_pdf_atomic (f : pdf_file) (w : world) :
  (exists b w', process_pdf f w = (Ret b, w'))
  /\ (forall w', process_pdf f w = (Ret false, w') ->
        data w' = data w /\ files w' = files w).
Proof.
  rewrite RunFacts.process_pdf_run. destruct (read_text f) as [text|e].
  - split; [eauto | discriminate].
  - split; [eauto|]. intros w' H. inversion H; subst. auto.
Qed.

Lemma process_pdf_atomic_witness :
  data (snd (process_pdf Samples.corrupt empty_world)) = [].
Proof.
  destruct (process_pdf_atomic Samples.corrupt empty_world) as [_ H].
  apply (H (snd (process_pdf Samples.corrupt empty_world))).
  vm_compute. reflexivity.
Defined.

(** C10. If any page of a document yields no text (null), the whole
    document fails: processing reports failure, prints the error and
    appends no record, whatever the other pages yield. *)
Theorem page_without_text_fails_document
        (f : pdf_file) (pages : list page) (w : world) :
  content f = Document pages -> In (Text None) pages ->
  exists e,
    read_text f = Raise e /\
    process_pdf f w = (Ret false, add_lines [processing_error f e] w) /\
    data (snd (process_pdf f w)) = data w /\
    doc_records f = [].
Proof.
  intros Hc Hin.
  destruct (ReadFacts.read_text_page_without_text f pages Hc Hin) as [e E].
  exists e. rewrite RunFacts.process_pdf_run. unfold doc_records. rewrite E.
  auto.
Qed.

Lemma page_without_text_fails_document_witness :
  fst (process_pdf Samples.scanned empty_world) = Ret false /\
  data (snd (process_pdf Samples.scanned empty_world)) = [].
Proof.
  destruct (page_without_text_fails_document Samples.scanned
              [Text (Some Samples.bill_text); Text None;
               Text (Some Samples.bill_text)] empty_world eq_refl)
    as (e & _ & H & Hd & _).
  - right. left. reflexivity.
  - rewrite H. auto.
Defined.

(** C6. When the record list is empty, export prints a warning, returns
    failure and writes no file. *)
Theorem export_skipped_when_empty
        (frame_to_csv : list dict -> str) (base : str) (now : Os.datetime)
        (w : world) :
  data w = [] ->
  export_to_csv frame_to_csv base now w
  = (Ret false, add_lines [lit "No data to export"] w)
  /\ files (snd (export_to_csv frame_to_csv base now w)) = files w.
Proof.
  intros H. unfold export_to_csv, get_data. simpl. rewrite H. auto.
Qed.

Lemma export_skipped_when_empty_witness :
  export_to_csv (fun _ => []) (lit "out.csv") Samples.noon empty_world
  = (Ret false, add_lines [lit "No data to export"] empty_world).
Proof.
  apply (export_skipped_when_empty (fun _ => []) (lit "out.csv") Samples.noon
           empty_world eq_refl).
Defined.

Module StripFacts.

Lemma lstrip_split s :
  exists sp, s = sp ++ lstrip s /\ forallb is_space sp = true.
Proof.
  induction s as [|c s [sp [E F]]]; simpl.
  - exists []. auto.
  - destruct (is_space c) eqn:C.
    + exists (c :: sp). split.
      * change ((c :: sp) ++ lstrip s) with (c :: (sp ++ lstrip s)).
        now rewrite <- E.
      * cbn [forallb]. now rewrite C, F.
    + exists []. auto.
Qed.

Lemma lstrip_head s :
  match lstrip s with c :: _ => is_space c = false | [] => True end.
Proof.
  induction s as [|c s IH]; simpl; auto.
  destruct (is_space c) eqn:C; auto.
Qed.

Lemma rstrip_split s :
  exists sp, s = rstrip s ++ sp /\ forallb is_space sp = true.
Proof.
  unfold rstrip. destruct (lstrip_split (rev s)) as [sp [E F]].
  exists (rev sp). split.
  - rewrite <- rev_app_distr, <- E. now rewrite rev_involutive.
  - rewrite forallb_forall in *. intros x Hx. apply F. now apply in_rev.
Qed.

Lemma last_rev_cons (c : ascii) u d : last (rev (c :: u)) d = c.
Proof. simpl. apply last_last. Qed.

Lemma rstrip_last s d :
  rstrip s <> [] -> is_space (last (rstrip s) d) = false.
Proof.
  unfold rstrip. pose proof (lstrip_head (rev s)) as H.
  destruct (lstrip (rev s)) as [|c u];
    [intros X; exfalso; apply X; reflexivity|].
  intros _. now rewrite last_rev_cons.
Qed.

Lemma rstrip_head c s :
  is_space c = false -> exists t, rstrip (c :: s) = c :: t.
Proof.
  intros C. destruct (rstrip_split (c :: s)) as [sp [E F]].
  destruct (rstrip (c :: s)) as [|x t]; simpl in E.
  - subst sp. simpl in F. rewrite C in F. discriminate.
  - inversion E; subst. eauto.
Qed.

(** [strip] leaves no white space at either end. *)
Lemma strip_trimmed s : trimmed (strip s) = true.
Proof.
  unfold strip, trimmed. pose proof (lstrip_head s) as H.
  destruct (lstrip s) as [|c t] eqn:E; [reflexivity|].
  destruct (rstrip_head c t H) as [u Hu].
  pose proof (rstrip_last (c :: t) c) as L. rewrite Hu in *.
  rewrite H, L by discriminate. reflexivity.
Qed.

(** [strip] removes white space only: the result sits between two runs of
    white space of the argument. *)
Lemma strip_split s :
  exists a b, s = a ++ strip s ++ b /\
              forallb is_space a = true /\ forallb is_space b = true.
Proof.
  destruct (lstrip_split s) as [a [Ea Fa]].
  destruct (rstrip_split (lstrip s)) as [b [Eb Fb]].
  exists a, b. unfold strip. rewrite <- Eb. auto.
Qed.
End StripFacts.

Module NameFacts.
Import Re.

Ltac inv H := inversion H; subst; clear H.

Lemma cset_match_one x c : cset_match true (one c) x = same_letter x c.
Proof. unfold cset_match, one, same_letter. simpl. now rewrite orb_false_r. Qed.

Lemma cset_match_space ic x : cset_match ic space x = is_space x.
Proof. unfold cset_match, space, cls. simpl. now rewrite orb_false_r. Qed.

Lemma forallb_space ic w :
  forallb (cset_match ic space) w = forallb is_space w.
Proof.
  induction w as [|x w IH]; simpl; auto. now rewrite cset_match_space, IH.
Qed.

(** Inversion of [Matches], one lemma per constructor of patterns. *)
Lemma inv_eps ic w rest c c' :
  Matches ic Eps w rest c c' -> w = [] /\ c' = c.
Proof. intros M. inv M. auto. Qed.

Lemma inv_chr ic cs w rest c c' :
  Matches ic (Chr cs) w rest c c' ->
  exists x, w = [x] /\ c' = c /\ cset_match ic cs x = true.
Proof. intros M. inv M. eauto. Qed.

Lemma inv_seq ic r1 r2 w rest c c2 :
  Matches ic (Seq r1 r2) w rest c c2 ->
  exists w1 w2 c1,
    w = w1 ++ w2 /\ Matches ic r1 w1 (w2 ++ rest) c c1 /\
    Matches ic r2 w2 rest c1 c2.
Proof. intros M. inv M. eauto 7. Qed.

Lemma inv_alt ic r1 r2 w rest c c' :
  Matches ic (Alt r1 r2) w rest c c' ->
  Matches ic r1 w rest c c' \/ Matches ic r2 w rest c c'.
Proof. intros M. inv M; auto. Qed.

Lemma inv_rep ic greedy lo hi cs w rest c c' :
  Matches ic (Rep greedy lo hi cs) w rest c c' ->
  c' = c /\ forallb (cset_match ic cs) w = true /\ lo <= List.length w /\
  (forall h, hi = Some h -> List.length w <= h).
Proof. intros M. inv M. auto. Qed.

Lemma inv_grp ic n r w rest c c' :
  Matches ic (Grp n r) w rest c c' ->
  exists c1, c' = (n, w) :: c1 /\ Matches ic r w rest c c1.
Proof. intros M. inv M. eauto. Qed.

Lemma inv_eos ic w rest c c' :
  Matches ic Eos w rest c c' -> w = [] /\ c' = c /\ at_end rest = true.
Proof. intros M. inv M. auto. Qed.

(** A run of literal characters matches exactly its spellings in any
    case, and captures nothing. *)
Lemma matches_chars l : forall w rest c c',
  Matches true (chars l) w rest c c' ->
  c' = c /\ map lower w = map lower l.
Proof.
  induction l as [|a l IH]; intros w rest c c' M.
  - apply inv_eps in M as [-> ->]. auto.
  - destruct l as [|b l].
    + apply inv_chr in M as (x & -> & -> & Hx).
      rewrite cset_match_one in Hx. apply Ascii.eqb_eq in Hx.
      simpl. split; congruence.
    + change (chars (a :: b :: l)) with (Seq (Chr (one a)) (chars (b :: l))) in M.
      apply inv_seq in M as (w1 & w2 & c1 & -> & M1 & M2).
      apply inv_chr in M1 as (x & -> & -> & Hx).
      rewrite cset_match_one in Hx. apply Ascii.eqb_eq in Hx.
      apply IH in M2 as [-> E]. split; auto.
      simpl. simpl in E. congruence.
Qed.

Lemma clean_name_unfold :
  Patterns.clean_name =
    Seq (text "NAME")
      (Seq (plus space)
         (Seq (Grp 1 (plus_lazy Patterns.name_char))
            (Alt (Seq (star space) (text "FAX"))
                 (Seq (star space) Eos)))).
Proof. reflexivity. Qed.

Lemma nonempty_of_length (w : str) : 1 <= List.length w -> w <> [].
Proof. destruct w; simpl; [lia | discriminate]. Qed.

(** The shape of every match of the customer-name pattern. *)
Lemma clean_name_shape whole rest c :
  Matches true Patterns.clean_name whole rest [] c ->
  exists label ws g sp stop,
    whole = label ++ ws ++ g ++ sp ++ stop /\
    c = [(1, g)] /\
    map lower label = lit "name" /\
    ws <> [] /\ forallb is_space ws = true /\
    g <> [] /\ forallb (cset_match true Patterns.name_char) g = true /\
    forallb is_space sp = true /\
    ((map lower stop = lit "fax") \/ (stop = [] /\ at_end rest = true)).
Proof.
  rewrite clean_name_unfold. intros M.
  apply inv_seq in M as (label & w1 & c1 & -> & Ml & M).
  apply matches_chars in Ml as [-> El].
  apply inv_seq in M as (ws & w2 & c2 & -> & Mws & M).
  apply inv_rep in Mws as (-> & Fws & Lws & _).
  rewrite forallb_space in Fws.
  apply inv_seq in M as (g & w3 & c3 & -> & Mg & M).
  apply inv_grp in Mg as (c4 & -> & Mg).
  apply inv_rep in Mg as (-> & Fg & Lg & _).
  exists label, ws, g.
  apply inv_alt in M as [M|M];
    apply inv_seq in M as (sp & stop & c5 & -> & Msp & M);
    apply inv_rep in Msp as (-> & Fsp & _);
    rewrite forallb_space in Fsp; exists sp, stop.
  - apply matches_chars in M as [-> Ef].
    repeat split; auto using nonempty_of_length.
  - apply inv_eos in M as (-> & -> & He).
    repeat split; auto using nonempty_of_length.
Qed.

(** Without a NAME label at the head of the subject the pattern does not
    match there. *)
Lemma no_label_no_match s :
  name_label_at s = false -> match_at true Patterns.clean_name s = None.
Proof.
  intros H. destruct (match_at true Patterns.clean_name s) as [[w c]|] eqn:E; auto.
  exfalso. apply ReFacts.match_at_sound in E as (rest & -> & M).
  apply clean_name_shape in M
    as (label & ws & g & sp & stop & -> & _ & El & Hws & Fws & _).
  destruct label as [|c1 [|c2 [|c3 [|c4 [|c5 l]]]]]; try discriminate.
  destruct ws as [|x ws]; [congruence|].
  simpl in El. inversion El. simpl in H, Fws.
  apply andb_true_iff in Fws as [Fx _].
  unfold same_letter in H. rewrite H1, H2, H3, H4, Fx in H.
  vm_compute in H. discriminate.
Qed.

(** Positions at which the pattern cannot match are skipped. *)
Lemma search_from_skip ic r pre : forall rest pos,
  (forall i, i < List.length pre ->
     match_at ic r (skipn i (pre ++ rest)) = None) ->
  search_from ic r pos (pre ++ rest)
  = search_from ic r (pos + List.length pre) rest.
Proof.
  induction pre as [|x pre IH]; intros rest pos H; simpl.
  - now rewrite Nat.add_0_r.
  - pose proof (H 0 ltac:(simpl; lia)) as H0. simpl in H0.
    replace (match_at ic r (x :: pre ++ rest)) with (@None (str * caps)).
    rewrite IH.
    + f_equal. lia.
    + intros i Hi. apply (H (S i)). simpl. lia.
Qed.
End NameFacts.





(** C7 (defect). Two consecutive runs against the same base output path
    whose exports fall in the same second write the same file name: the
    second run replaces the export of the first. *)
Theorem same_second_runs_overwrite (frame_to_csv : list dict -> str) :
  let w1 := TwoRuns.run frame_to_csv [Samples.good "jan.pdf"] empty_world in
  let w2 := TwoRuns.run frame_to_csv
              [Samples.good "jan.pdf"; Samples.good "feb.pdf"] w1 in
  files w1 = [(lit "bills/eskom_bills_processed_20240115_120000.csv",
               frame_to_csv (data w1))]
  /\ files w2 = [(lit "bills/eskom_bills_processed_20240115_120000.csv",
                  frame_to_csv (data w2))]
  /\ List.length (data w1) = 1 /\ List.length (data w2) = 2.
Proof.
  vm_compute. repeat split.
Qed.

(** * Further properties of the code *)

Module ClockFacts.
Import Os Clock.

Lemma below_all (P : nat -> bool) (N : nat) :
  forallb P (seq 0 N) = true -> forall n, n < N -> P n = true.
Proof.
  intros H n Hn. rewrite forallb_forall in H. apply H. apply in_seq. lia.
Qed.

Lemma zfill2_ok n :
  n < 100 -> List.length (zfill 2 n) = 2 /\ digits_value (zfill 2 n) = N.of_nat n.
Proof.
  intros Hn.
  assert (H : (Nat.eqb (List.length (zfill 2 n)) 2
               && N.eqb (digits_value (zfill 2 n)) (N.of_nat n)) = true).
  { revert n Hn. apply below_all. vm_compute. reflexivity. }
  apply andb_true_iff in H as [H1 H2].
  apply Nat.eqb_eq in H1. apply N.eqb_eq in H2. auto.
Qed.

Lemma zfill4_ok n :
  n < 100 * 100 ->
  List.length (zfill 4 n) = 4 /\ digits_value (zfill 4 n) = N.of_nat n.
Proof.
  intros Hn.
  assert (H : (Nat.eqb (List.length (zfill 4 n)) 4
               && N.eqb (digits_value (zfill 4 n)) (N.of_nat n)) = true).
  { revert n Hn. apply below_all. vm_compute. reflexivity. }
  apply andb_true_iff in H as [H1 H2].
  apply Nat.eqb_eq in H1. apply N.eqb_eq in H2. auto.
Qed.

Lemma app_inj_len (A : Type) (a a' b b' : list A) :
  List.length a = List.length a' -> a ++ b = a' ++ b' -> a = a' /\ b = b'.
Proof.
  revert a'. induction a as [|x a IH]; intros [|y a'] L E; simpl in *;
    try discriminate; auto.
  inversion E; subst. destruct (IH a') as [-> ->]; auto.
Qed.

Lemma valid_bounds t :
  valid t = true ->
  year t < 100 * 100 /\ month t < 100 /\ day t < 100 /\
  hour t < 100 /\ minute t < 100 /\ second t < 100.
Proof.
  unfold valid. rewrite !andb_true_iff, !Nat.leb_le, Nat.ltb_lt. lia.
Qed.

Lemma strftime_length t : valid t = true -> List.length (strftime t) = 15.
Proof.
  intros V. apply valid_bounds in V as (Y & Mo & D & H & Mi & S).
  unfold strftime. rewrite !length_app.
  destruct (zfill4_ok _ Y) as [-> _].
  destruct (zfill2_ok _ Mo) as [-> _]. destruct (zfill2_ok _ D) as [-> _].
  destruct (zfill2_ok _ H) as [-> _]. destruct (zfill2_ok _ Mi) as [-> _].
  destruct (zfill2_ok _ S) as [-> _]. reflexivity.
Qed.

(** The timestamp determines the clock reading. *)
Lemma strftime_inj t1 t2 :
  valid t1 = true -> valid t2 = true -> strftime t1 = strftime t2 -> t1 = t2.
Proof.
  intros V1 V2 E.
  apply valid_bounds in V1 as (Y1 & Mo1 & D1 & H1 & Mi1 & S1).
  apply valid_bounds in V2 as (Y2 & Mo2 & D2 & H2 & Mi2 & S2).
  unfold strftime in E.
  destruct (zfill4_ok _ Y1) as [Ly1 Vy1]. destruct (zfill4_ok _ Y2) as [Ly2 Vy2].
  destruct (zfill2_ok _ Mo1) as [Lm1 Vm1]. destruct (zfill2_ok _ Mo2) as [Lm2 Vm2].
  destruct (zfill2_ok _ D1) as [Ld1 Vd1]. destruct (zfill2_ok _ D2) as [Ld2 Vd2].
  destruct (zfill2_ok _ H1) as [Lh1 Vh1]. destruct (zfill2_ok _ H2) as [Lh2 Vh2].
  destruct (zfill2_ok _ Mi1) as [Li1 Vi1]. destruct (zfill2_ok _ Mi2) as [Li2 Vi2].
  destruct (zfill2_ok _ S1) as [Ls1 Vs1]. destruct (zfill2_ok _ S2) as [Ls2 Vs2].
  apply app_inj_len in E as [Ey E]; [|congruence].
  apply app_inj_len in E as [Em E]; [|congruence].
  apply app_inj_len in E as [Ed E]; [|congruence].
  apply app_inj_len in E as [_ E]; [|reflexivity].
  apply app_inj_len in E as [Eh E]; [|congruence].
  apply app_inj_len in E as [Ei Es]; [|congruence].
  destruct t1, t2; simpl in *. f_equal; apply Nat2N.inj; congruence.
Qed.
End ClockFacts.

Module PathFacts.
Import Os Path.

(** [rfind] finds the last occurrence. *)
Lemma rfind_from_spec c s : forall i,
  (0 <= i)%Z ->
  (~ In c s /\ rfind_from c s i = (-1)%Z)
  \/ (exists a b, s = a ++ c :: b /\ ~ In c b /\
                  rfind_from c s i = (i + Z.of_nat (List.length a))%Z).
Proof.
  induction s as [|x s IH]; intros i Hi; simpl.
  - left. auto.
  - destruct (IH (i + 1)%Z ltac:(lia)) as [[Hn E] | (a & b & -> & Hb & E)];
      rewrite E.
    + destruct (0 <=? -1)%Z eqn:C; [apply Z.leb_le in C; lia|].
      destruct (Ascii.eqb x c) eqn:X.
      * apply Ascii.eqb_eq in X. subst x. right. exists [], s.
        simpl. repeat split; auto. lia.
      * apply Ascii.eqb_neq in X. left. split; auto.
        intros [H|H]; auto.
    + destruct (0 <=? i + 1 + Z.of_nat (List.length a))%Z eqn:C;
        [|apply Z.leb_gt in C; lia].
      right. exists (x :: a), b. simpl. repeat split; auto. lia.
Qed.

Lemma skip_past (a : str) c b n :
  n <= List.length a -> skipn n (a ++ c :: b) = skipn n a ++ c :: b.
Proof.
  intros H. rewrite skipn_app.
  replace (n - List.length a) with 0 by lia. reflexivity.
Qed.

Lemma skip_just (a : str) c b : skipn (S (List.length a)) (a ++ c :: b) = b.
Proof.
  rewrite skipn_app, (@skipn_all2 _ (S (List.length a)) a) by lia.
  replace (S (List.length a) - List.length a) with 1 by lia. reflexivity.
Qed.

(** Two ways to cut a string at its last [c] are the same. *)
Lemma last_occurrence_unique c (a b a' b' : str) :
  a ++ c :: b = a' ++ c :: b' -> ~ In c b -> ~ In c b' ->
  List.length a = List.length a'.
Proof.
  intros E Hb Hb'.
  destruct (Nat.lt_trichotomy (List.length a) (List.length a')) as [L|[L|L]];
    auto; exfalso.
  - apply (f_equal (skipn (S (List.length a)))) in E.
    rewrite skip_just, skip_past in E by lia.
    apply Hb. rewrite E. apply in_or_app. right. left. reflexivity.
  - apply (f_equal (skipn (S (List.length a')))) in E.
    rewrite skip_just, skip_past in E by lia.
    apply Hb'. rewrite <- E. apply in_or_app. right. left. reflexivity.
Qed.

Lemma rfind_last c a b :
  ~ In c b -> rfind c (a ++ c :: b) = Z.of_nat (List.length a).
Proof.
  intros Hb. unfold rfind.
  destruct (rfind_from_spec c (a ++ c :: b) 0 ltac:(lia))
    as [[Hn _] | (a' & b' & E & Hb' & ->)].
  - exfalso. apply Hn. apply in_or_app. right. left. reflexivity.
  - rewrite (last_occurrence_unique c a b a' b' E Hb Hb'). lia.
Qed.

Lemma rfind_absent c s : ~ In c s -> rfind c s = (-1)%Z.
Proof.
  intros H. unfold rfind.
  destruct (rfind_from_spec c s 0 ltac:(lia)) as [[_ E] | (a & b & -> & _)]; auto.
  exfalso. apply H. apply in_or_app. right. left. reflexivity.
Qed.

Lemma rfind_bounds c s : (-1 <= rfind c s < Z.of_nat (List.length s))%Z.
Proof.
  unfold rfind.
  destruct (rfind_from_spec c s 0 ltac:(lia)) as [[_ E] | (a & b & -> & _ & E)];
    rewrite E.
  - lia.
  - rewrite length_app. simpl. lia.
Qed.

Lemma in_skipn_in (x : ascii) n (l : str) : In x (skipn n l) -> In x l.
Proof.
  revert l. induction n as [|n IH]; intros [|y l] H; simpl in *; auto.
Qed.


Lemma splitext_cases p :
  (splitext p = (p, [])
   /\ ((rfind "/" p <? rfind "." p)%Z
        && existsb not_dot (slice p (rfind "/" p + 1) (rfind "." p)) = false))
  \/ (exists a b,
        p = a ++ "."%char :: b /\ ~ In "."%char b /\
        splitext p = (a, "."%char :: b) /\
        (rfind "/" p < Z.of_nat (List.length a))%Z /\
        existsb not_dot (slice p (rfind "/" p + 1) (Z.of_nat (List.length a))) = true).
Proof.
  unfold splitext. fold not_dot.
  destruct ((rfind "/" p <? rfind "." p)%Z
            && existsb not_dot (slice p (rfind "/" p + 1) (rfind "." p))) eqn:C.
  - right. apply andb_true_iff in C as [C1 C2]. apply Z.ltb_lt in C1.
    unfold rfind in C1, C2 |- * at 1 2.
    destruct (rfind_from_spec "." p 0 ltac:(lia)) as [[_ E] | (a & b & -> & Hb & E)].
    + pose proof (rfind_bounds "/" p). unfold rfind in *. lia.
    + fold (rfind "/" (a ++ "."%char :: b)) in *.
      rewrite E in *. simpl in *. rewrite Nat2Z.id.
      exists a, b. repeat split; auto.
      rewrite firstn_app, firstn_all, Nat.sub_diag. simpl. rewrite app_nil_r.
      rewrite skipn_app, skipn_all, Nat.sub_diag. reflexivity.
  - left. auto.
Qed.

(** [splitext] cuts the path in two; the extension is empty or starts at the
    last dot and holds no further dot and no separator. *)
Lemma splitext_parts p :
  fst (splitext p) ++ snd (splitext p) = p
  /\ (snd (splitext p) = []
      \/ exists e, snd (splitext p) = "."%char :: e /\
                   ~ In "."%char e /\ ~ In "/"%char e).
Proof.
  destruct (splitext_cases p) as [[E _] | (a & b & Ep & Hb & E & Hsep & _)];
    rewrite E; simpl.
  - split; [apply app_nil_r | auto].
  - split; [symmetry; exact Ep|]. right. exists b. repeat split; auto.
    intros Hs.
    unfold rfind in Hsep.
    destruct (rfind_from_spec "/" p 0 ltac:(lia))
      as [[Hn _] | (a2 & b2 & E2 & Hb2 & R)].
    + apply Hn. rewrite Ep. apply in_or_app. right. right. exact Hs.
    + rewrite R in Hsep. apply Hb2.
      assert (X : skipn (S (List.length a)) p = b) by (rewrite Ep; apply skip_just).
      rewrite E2 in X. rewrite skipn_app in X.
      rewrite (@skipn_all2 _ (S (List.length a)) a2), app_nil_l in X by lia.
      replace (S (List.length a) - List.length a2)
        with (S (List.length a - List.length a2)) in X by lia.
      cbn [skipn] in X. rewrite <- X in Hs. eapply in_skipn_in; eauto.
Qed.

(** The extension of a path whose last component is [stem.e]. *)
Lemma splitext_known pre stem e :
  ~ In "/"%char (stem ++ "."%char :: e) -> ~ In "."%char e ->
  existsb not_dot stem = true ->
  splitext (pre ++ stem ++ "."%char :: e) = (pre ++ stem, "."%char :: e).
Proof.
  intros Hsl Hdot Hnd.
  set (p := pre ++ stem ++ "."%char :: e).
  assert (Ep : p = (pre ++ stem) ++ "."%char :: e)
    by (unfold p; now rewrite <- app_assoc).
  assert (Rd : rfind "." p = Z.of_nat (List.length (pre ++ stem)))
    by (rewrite Ep; now apply rfind_last).
  assert (Rs : (rfind "/" p < Z.of_nat (List.length pre))%Z).
  { unfold rfind.
    destruct (rfind_from_spec "/" p 0 ltac:(lia))
      as [[_ R] | (a2 & b2 & E2 & Hb2 & R)]; rewrite R; [lia|].
    simpl. apply Nat2Z.inj_lt.
    destruct (Nat.lt_ge_cases (List.length a2) (List.length pre)) as [L|L]; auto.
    exfalso. apply Hsl.
    assert (X : skipn (List.length pre) p = stem ++ "."%char :: e).
    { unfold p. rewrite skipn_app, skipn_all, Nat.sub_diag. reflexivity. }
    rewrite <- X, E2, skip_past by lia.
    apply in_or_app. right. left. reflexivity. }
  pose proof (rfind_bounds "/" p) as Bs.
  unfold splitext. fold not_dot. fold p. rewrite Rd.
  assert (C1 : (rfind "/" p <? Z.of_nat (List.length (pre ++ stem)))%Z = true).
  { apply Z.ltb_lt. rewrite length_app. lia. }
  rewrite C1. simpl andb.
  assert (C2 : existsb not_dot
                 (slice p (rfind "/" p + 1) (Z.of_nat (List.length (pre ++ stem))))
               = true).
  { unfold slice.
    set (k := Z.to_nat (rfind "/" p + 1)).
    assert (Hk : k <= List.length pre) by (unfold k; lia).
    replace (Z.to_nat (Z.of_nat (List.length (pre ++ stem)) - (rfind "/" p + 1)))
      with (List.length (skipn k pre ++ stem))
      by (rewrite !length_app, length_skipn; unfold k; lia).
    assert (X : skipn k p = (skipn k pre ++ stem) ++ "."%char :: e).
    { unfold p. rewrite skipn_app.
      replace (k - List.length pre) with 0 by lia. simpl.
      now rewrite <- app_assoc. }
    rewrite X, firstn_app, firstn_all, Nat.sub_diag. simpl. rewrite app_nil_r.
    rewrite existsb_app, Hnd. apply orb_true_r. }
  rewrite C2, Nat2Z.id, Ep.
  rewrite firstn_app, firstn_all, Nat.sub_diag. simpl. rewrite app_nil_r.
  rewrite skipn_app, skipn_all, Nat.sub_diag. reflexivity.
Qed.
End PathFacts.

Module ExportFacts.
Import Fs.

(** Output paths of one base path agree only at the same clock reading. *)
Lemma output_path_inj base t1 t2 :
  Clock.valid t1 = true -> Clock.valid t2 = true ->
  output_path base t1 = output_path base t2 -> t1 = t2.
Proof.
  intros V1 V2 E. unfold output_path in E. destruct (Os.splitext base) as [stem ext].
  apply app_inv_head in E. apply app_inv_head in E. apply app_inv_tail in E.
  now apply ClockFacts.strftime_inj.
Qed.

Lemma eqb_refl (a : str) : PyStr.eqb a a = true.
Proof. now apply RunFacts.eqb_eq. Qed.

Lemma eqb_neq (a b : str) : a <> b -> PyStr.eqb a b = false.
Proof.
  intros H. destruct (PyStr.eqb a b) eqn:E; auto.
  apply RunFacts.eqb_eq in E. contradiction.
Qed.

Lemma find_written_same path content fs :
  find (fun f => PyStr.eqb (fst f) path) (written path content fs)
  = Some (path, content).
Proof. unfold written. simpl. now rewrite eqb_refl. Qed.

Lemma find_written_other path content q fs :
  q <> path ->
  find (fun f => PyStr.eqb (fst f) q) (written path content fs)
  = find (fun f => PyStr.eqb (fst f) q) fs.
Proof.
  intros H. unfold written. simpl. rewrite (eqb_neq path q) by congruence.
  induction fs as [|[k v] fs IH]; simpl; auto.
  destruct (PyStr.eqb k path) eqn:E; simpl.
  - apply RunFacts.eqb_eq in E. subst k. rewrite (eqb_neq path q) by congruence.
    exact IH.
  - destruct (PyStr.eqb k q); auto.
Qed.

Lemma output_path_parts base now :
  output_path base now
  = fst (Os.splitext base) ++ lit "_" ++ Os.strftime now ++ snd (Os.splitext base).
Proof. unfold output_path. destruct (Os.splitext base). reflexivity. Qed.

(** What an export does when there are records. *)
Lemma export_run frame_to_csv base now w :
  data w <> [] ->
  export_to_csv frame_to_csv base now w =
    if writable (output_path base now) w
    then (Ret true,
          {| data := data w;
             stdout := stdout w ++ [lit "Data exported to: " ++ output_path base now];
             files := written (output_path base now) (frame_to_csv (data w)) (files w);
             locked := locked w |})
    else (Ret false,
          add_lines [lit "Error exporting data: [Errno 13] Permission denied: '"
                     ++ output_path base now ++ lit "'"] w).
Proof.
  intros Hd. unfold export_to_csv, get_data, writable. cbn [bind M_monad].
  destruct (data w) as [|d ds] eqn:D; [congruence|].
  cbn [try_except bind M_monad]. unfold write_file, written, print, add_lines.
  destruct (existsb (PyStr.eqb (output_path base now)) (locked w));
    cbn; rewrite ?D; reflexivity.
Qed.
End ExportFacts.

Import Fs.

(** X1. With records to export and a writable output path, export returns
    success, writes the rendered records to the output path, leaves every
    other file and the record list as they were, and prints one notice. *)
Theorem export_writes_one_file
        (frame_to_csv : list dict -> str) (base : str) (now : Os.datetime)
        (w : world) :
  data w <> [] -> writable (output_path base now) w = true ->
  exists w',
    export_to_csv frame_to_csv base now w = (Ret true, w') /\
    data w' = data w /\
    read_file (output_path base now) w' = Some (frame_to_csv (data w)) /\
    (forall q, q <> output_path base now -> read_file q w' = read_file q w) /\
    stdout w' = stdout w ++ [lit "Data exported to: " ++ output_path base now].
Proof.
  intros Hd Hw. rewrite (ExportFacts.export_run _ _ _ _ Hd), Hw.
  eexists. split; [reflexivity|]. cbn [data stdout]. repeat split.
  - unfold read_file. cbn [files]. now rewrite ExportFacts.find_written_same.
  - intros q Hq. unfold read_file. cbn [files].
    now rewrite ExportFacts.find_written_other.
Qed.

Lemma export_writes_one_file_witness :
  fst (export_to_csv (fun _ => lit "csv") (lit "out/bills.csv") Samples.noon
         (add_record [] empty_world))
  = Ret true.
Proof.
  destruct (export_writes_one_file (fun _ => lit "csv") (lit "out/bills.csv")
              Samples.noon (add_record [] empty_world))
    as (w' & E & _).
  - discriminate.
  - reflexivity.
  - rewrite E. reflexivity.
Defined.

(** X2. When the output path cannot be written, export does not raise: it
    returns failure, prints one error line and leaves files and records
    untouched. *)
Theorem export_reports_unwritable_path
        (frame_to_csv : list dict -> str) (base : str) (now : Os.datetime)
        (w : world) :
  data w <> [] -> writable (output_path base now) w = false ->
  exists line,
    export_to_csv frame_to_csv base now w = (Ret false, add_lines [line] w).
Proof.
  intros Hd Hw. rewrite (ExportFacts.export_run _ _ _ _ Hd), Hw. eauto.
Qed.

Lemma export_reports_unwritable_path_witness :
  let w := {| data := [[]]; stdout := []; files := [];
              locked := [lit "bills_20240115_120000.csv"] |} in
  fst (export_to_csv (fun _ => lit "csv") (lit "bills.csv") Samples.noon w)
  = Ret false.
Proof.
  intros w.
  destruct (export_reports_unwritable_path (fun _ => lit "csv") (lit "bills.csv")
              Samples.noon w) as (line & E).
  - discriminate.
  - vm_compute. reflexivity.
  - rewrite E. reflexivity.
Defined.

(** X3. The output path is the base path with an underscore and the
    15-character timestamp inserted before its extension; the extension is
    empty or starts at the last dot of the last path component. *)
Theorem output_path_inserts_timestamp (base : str) (now : Os.datetime) :
  Clock.valid now = true ->
  exists stem ext,
    base = stem ++ ext /\
    output_path base now = stem ++ lit "_" ++ Os.strftime now ++ ext /\
    List.length (Os.strftime now) = 15 /\
    (ext = [] \/ exists e, ext = "."%char :: e /\
                           ~ In "."%char e /\ ~ In "/"%char e).
Proof.
  intros V. exists (fst (Os.splitext base)), (snd (Os.splitext base)).
  destruct (PathFacts.splitext_parts base) as [E S].
  repeat split; auto.
  - apply ExportFacts.output_path_parts.
  - now apply ClockFacts.strftime_length.
Qed.

Lemma output_path_inserts_timestamp_witness :
  exists stem ext,
    lit "out/bills.v2.csv" = stem ++ ext /\
    output_path (lit "out/bills.v2.csv") Samples.noon
    = stem ++ lit "_" ++ lit "20240115_120000" ++ ext /\
    List.length (lit "20240115_120000") = 15 /\
    (ext = [] \/ exists e, ext = "."%char :: e /\
                           ~ In "."%char e /\ ~ In "/"%char e).
Proof.
  exact (output_path_inserts_timestamp (lit "out/bills.v2.csv") Samples.noon
           eq_refl).
Defined.

(** X4. Exports at two different clock readings never share an output
    path. *)
Theorem output_paths_differ_across_seconds (base : str) (t1 t2 : Os.datetime) :
  Clock.valid t1 = true -> Clock.valid t2 = true -> t1 <> t2 ->
  output_path base t1 <> output_path base t2.
Proof.
  intros V1 V2 Hne E. apply Hne. now apply (ExportFacts.output_path_inj base).
Qed.

Lemma output_paths_differ_across_seconds_witness :
  output_path (lit "bills.csv") Samples.noon
  <> output_path (lit "bills.csv")
       {| Os.year := 2024; Os.month := 1; Os.day := 15;
          Os.hour := 12; Os.minute := 0; Os.second := 1 |}.
Proof.
  apply output_paths_differ_across_seconds; [reflexivity | reflexivity | discriminate].
Defined.

(** X5. Two exports of the same records at different clock readings leave
    two files: the second does not disturb the first. *)
Theorem exports_in_different_seconds_keep_both
        (frame_to_csv : list dict -> str) (base : str) (t1 t2 : Os.datetime)
        (w : world) :
  Clock.valid t1 = true -> Clock.valid t2 = true -> t1 <> t2 ->
  data w <> [] -> locked w = [] ->
  let w2 := snd (export_to_csv frame_to_csv base t2
                   (snd (export_to_csv frame_to_csv base t1 w))) in
  read_file (output_path base t1) w2 = Some (frame_to_csv (data w)) /\
  read_file (output_path base t2) w2 = Some (frame_to_csv (data w)).
Proof.
  intros V1 V2 Hne Hd Hl w2. subst w2.
  assert (Hp : output_path base t1 <> output_path base t2).
  { intros E. apply Hne. now apply (ExportFacts.output_path_inj base). }
  rewrite (ExportFacts.export_run _ _ t1 _ Hd). unfold writable.
  rewrite Hl. cbn [existsb negb snd].
  rewrite ExportFacts.export_run by exact Hd.
  unfold writable. cbn [locked existsb negb snd].
  unfold read_file. cbn [files data]. split.
  - rewrite ExportFacts.find_written_other by exact Hp.
    now rewrite ExportFacts.find_written_same.
  - now rewrite ExportFacts.find_written_same.
Qed.

Lemma exports_in_different_seconds_keep_both_witness :
  let t2 := {| Os.year := 2024; Os.month := 1; Os.day := 15;
               Os.hour := 12; Os.minute := 0; Os.second := 1 |} in
  let w := add_record [] empty_world in
  read_file (lit "bills_20240115_120000.csv")
    (snd (export_to_csv (fun _ => lit "csv") (lit "bills.csv") t2
            (snd (export_to_csv (fun _ => lit "csv") (lit "bills.csv")
                    Samples.noon w))))
  = Some (lit "csv").
Proof.
  intros t2 w.
  assert (V : Clock.valid t2 = true) by reflexivity.
  assert (N : Samples.noon <> t2) by discriminate.
  assert (D : data w <> []) by discriminate.
  exact (proj1 (exports_in_different_seconds_keep_both (fun _ => lit "csv")
                  (lit "bills.csv") Samples.noon t2 w eq_refl V N D eq_refl)).
Defined.

Module MainFacts.

Lemma join_prefix a b :
  exists pre, Os.join a b = pre ++ b /\
              forall b', Os.join a b' = pre ++ b'.
Proof.
  unfold Os.join. destruct (rev a) as [|c r].
  - exists []. auto.
  - destruct (Ascii.eqb c "/"); [exists a | exists (a ++ lit "/")]; split; auto;
      intros; now rewrite <- ?app_assoc.
Qed.

(** Where [main] writes its export. *)
Lemma main_output_path pdf_dir now :
  output_path (Os.join pdf_dir (lit "eskom_bills_processed.csv")) now
  = Os.join pdf_dir (export_name now).
Proof.
  destruct (join_prefix pdf_dir (lit "eskom_bills_processed.csv")) as [pre [E J]].
  rewrite E, J, ExportFacts.output_path_parts.
  change (lit "eskom_bills_processed.csv")
    with (lit "eskom_bills_processed" ++ "."%char :: lit "csv").
  rewrite PathFacts.splitext_known.
  - cbn [fst snd]. unfold export_name. now rewrite <- !app_assoc.
  - vm_compute. intuition discriminate.
  - vm_compute. intuition discriminate.
  - reflexivity.
Qed.

Lemma no_records_iff fs :
  flat_map doc_records fs = [] <-> existsb processable fs = false.
Proof.
  induction fs as [|f fs IH]; simpl; [tauto|].
  unfold doc_records at 1, processable at 1.
  destruct (read_text f); simpl; [split; discriminate | exact IH].
Qed.

Lemma filter_none (fs : list pdf_file) :
  existsb processable fs = false -> filter processable fs = [].
Proof.
  induction fs as [|f fs IH]; simpl; auto.
  destruct (processable f); simpl; [discriminate | exact IH].
Qed.

(** A run of [main] on a directory. *)
Lemma main_run frame_to_csv pdf_dir fs now w :
  main frame_to_csv pdf_dir (Some fs) now w =
    let w1 := {| data := flat_map doc_records fs;
                 stdout := stdout w ++ flat_map doc_lines fs
                           ++ [summary (List.length (filter processable fs))];
                 files := files w; locked := locked w |} in
    let '(_, w2) := export_to_csv frame_to_csv
                      (Os.join pdf_dir (lit "eskom_bills_processed.csv")) now w1 in
    (Ret tt, w2).
Proof.
  unfold main, init. cbn [bind M_monad].
  rewrite RunFacts.process_directory_run. cbn [data stdout files locked app].
  destruct (export_to_csv _ _ _ _) as [[b|e] w2] eqn:E; [reflexivity|].
  exfalso. revert E. unfold export_to_csv, get_data. cbn [bind M_monad data].
  destruct (flat_map doc_records fs); cbn; [discriminate|].
  unfold write_file. destruct (existsb _ _); cbn; discriminate.
Qed.
End MainFacts.

(** X6. When no document of the directory can be processed, or the path is
    no directory, a run writes no file; it prints the per-document errors,
    the notice that nothing was processed and the notice that there is
    nothing to export. *)
Theorem main_without_records_writes_nothing
        (frame_to_csv : list dict -> str) (pdf_dir : str) (now : Os.datetime)
        (w : world) :
  (forall fs, existsb processable fs = false ->
     main frame_to_csv pdf_dir (Some fs) now w
     = (Ret tt,
        {| data := [];
           stdout := stdout w ++ flat_map doc_lines fs
                     ++ [lit "No PDF files were successfully processed";
                         lit "No data to export"];
           files := files w; locked := locked w |}))
  /\ main frame_to_csv pdf_dir None now w
     = (Ret tt,
        {| data := []; stdout := stdout w ++ [lit "Invalid directory path!"];
           files := files w; locked := locked w |}).
Proof.
  split; [|reflexivity].
  intros fs H. rewrite MainFacts.main_run.
  pose proof (proj2 (MainFacts.no_records_iff fs) H) as D.
  rewrite D, (MainFacts.filter_none fs H).
  unfold export_to_csv, get_data, print, add_lines. cbn.
  rewrite <- !app_assoc. reflexivity.
Qed.

Lemma main_without_records_writes_nothing_witness :
  files (snd (main (fun _ => lit "csv") (lit "bills")
                (Some [Samples.corrupt; Samples.scanned]) Samples.noon
                empty_world)) = [].
Proof.
  destruct (main_without_records_writes_nothing (fun _ => lit "csv") (lit "bills")
              Samples.noon empty_world) as [H _].
  rewrite (H [Samples.corrupt; Samples.scanned]); [reflexivity|].
  vm_compute. reflexivity.
Defined.

(** X7. When at least one document can be processed and the output path is
    writable, a run writes exactly one file, inside the directory and named
    [eskom_bills_processed_<timestamp>.csv]; it holds the records of the
    processable documents in directory order, whatever records the processor
    held before. *)
Theorem main_exports_records_of_processable_documents
        (frame_to_csv : list dict -> str) (pdf_dir : str)
        (fs : list pdf_file) (now : Os.datetime) (w : world) :
  existsb processable fs = true ->
  writable (Os.join pdf_dir (export_name now)) w = true ->
  exists w',
    main frame_to_csv pdf_dir (Some fs) now w = (Ret tt, w') /\
    data w' = flat_map doc_records fs /\
    List.length (data w') = List.length (filter processable fs) /\
    files w' = written (Os.join pdf_dir (export_name now))
                 (frame_to_csv (flat_map doc_records fs)) (files w).
Proof.
  intros Hp Hw. rewrite MainFacts.main_run. cbv zeta.
  assert (D : flat_map doc_records fs <> []).
  { intros E. apply MainFacts.no_records_iff in E. congruence. }
  rewrite ExportFacts.export_run by exact D.
  rewrite MainFacts.main_output_path.
  unfold writable in *. cbn [locked data files]. rewrite Hw.
  eexists. split; [reflexivity|]. cbn [data files].
  repeat split. apply RunFacts.doc_records_length.
Qed.

Lemma main_exports_records_of_processable_documents_witness :
  map fst (files (snd (main (fun _ => lit "csv") (lit "bills")
                         (Some [Samples.corrupt; Samples.good "jan.pdf"])
                         Samples.noon empty_world)))
  = [lit "bills/eskom_bills_processed_20240115_120000.csv"].
Proof.
  destruct (main_exports_records_of_processable_documents
              (fun _ => lit "csv") (lit "bills")
              [Samples.corrupt; Samples.good "jan.pdf"] Samples.noon empty_world)
    as (w' & E & _ & _ & F).
  - vm_compute. reflexivity.
  - reflexivity.
  - rewrite E. cbn [snd]. rewrite F. reflexivity.
Defined.

Module GroupFacts.
Import Re ReSyntax.

(** Every character a pattern consumes is accepted by one of its atoms. *)
Lemma matches_accepted ic r w rest c c' :
  Matches ic r w rest c c' -> forallb (accepted ic r) w = true.
Proof.
  unfold accepted.
  induction 1; simpl; auto.
  - now rewrite H.
  - rewrite forallb_app. apply andb_true_iff. split.
    + rewrite forallb_forall in *. intros x Hx. specialize (IHMatches1 x Hx).
      rewrite existsb_app, IHMatches1. reflexivity.
    + rewrite forallb_forall in *. intros x Hx. specialize (IHMatches2 x Hx).
      rewrite existsb_app, IHMatches2. apply orb_true_r.
  - rewrite forallb_forall in *. intros x Hx. specialize (IHMatches x Hx).
    rewrite existsb_app, IHMatches. reflexivity.
  - rewrite forallb_forall in *. intros x Hx. specialize (IHMatches x Hx).
    rewrite existsb_app, IHMatches. apply orb_true_r.
  - rewrite forallb_forall in *. intros x Hx. rewrite (H x Hx). reflexivity.
Qed.

Lemma matches_min_len ic r w rest c c' :
  Matches ic r w rest c c' -> min_len r <= List.length w.
Proof.
  induction 1; simpl; auto; try lia.
  rewrite length_app. lia.
Qed.

(** A capture present after a match was there before, or is the text
    consumed by the body of a group of that number. *)
Lemma matches_capture ic g r w rest c c' :
  Matches ic r w rest c c' ->
  forall v, lookup g c' = Some v ->
    lookup g c = Some v
    \/ exists body rest' c0 c1,
         In body (bodies g r) /\ Matches ic body v rest' c0 c1.
Proof.
  induction 1; intros v Hv; simpl; auto.
  - destruct (IHMatches2 v Hv) as [H1 | (body & rest' & c0 & c1' & Hin & M)].
    + destruct (IHMatches1 v H1) as [H2 | (body & rest' & c0 & c1' & Hin & M)]; auto.
      right. exists body, rest', c0, c1'. split; auto. apply in_or_app. auto.
    + right. exists body, rest', c0, c1'. split; auto. apply in_or_app. auto.
  - destruct (IHMatches v Hv) as [H1 | (body & rest' & c0 & c1' & Hin & M)]; auto.
    right. exists body, rest', c0, c1'. split; auto. apply in_or_app. auto.
  - destruct (IHMatches v Hv) as [H1 | (body & rest' & c0 & c1' & Hin & M)]; auto.
    right. exists body, rest', c0, c1'. split; auto. apply in_or_app. auto.
  - simpl in Hv. destruct (Nat.eqb n g) eqn:E.
    + inversion Hv; subst. right. exists r, rest, c, c'. split; auto.
      left. reflexivity.
    + destruct (IHMatches v Hv) as [H1 | (body & rest' & c0 & c1' & Hin & M)];
        [left; exact H1 | right; exists body, rest', c0, c1'; split; auto].
Qed.

(** What [extract_value] returns is the stripped text of a match of the
    body of group 1. *)
Lemma field_text_body pattern text v :
  field_text pattern text = Some v ->
  exists body g rest c0 c1,
    In body (bodies 1 pattern) /\ Matches true body g rest c0 c1 /\ v = strip g.
Proof.
  unfold field_text.
  destruct (search true pattern text) as [m|] eqn:Hs; [|discriminate].
  destruct (lookup 1 (m_caps m)) as [g|] eqn:Hg; [|discriminate].
  intros E. inversion E; subst v.
  apply ReFacts.search_from_some in Hs as (pre & rest & _ & _ & M & _ & _).
  destruct (matches_capture true 1 _ _ _ _ _ M g Hg)
    as [H | (body & rest' & c0 & c1 & Hin & Mb)]; [discriminate|].
  exists body, g, rest', c0, c1. auto.
Qed.

(** Stripping leaves a string without white space as it is. *)
Lemma lstrip_no_space s :
  forallb (fun x => negb (is_space x)) s = true -> lstrip s = s.
Proof.
  destruct s as [|c s]; simpl; auto.
  intros H. apply andb_true_iff in H as [H _].
  destruct (is_space c); [discriminate | reflexivity].
Qed.

Lemma strip_no_space s :
  forallb (fun x => negb (is_space x)) s = true -> strip s = s.
Proof.
  intros H. unfold strip, rstrip. rewrite (lstrip_no_space s H).
  rewrite lstrip_no_space.
  - apply rev_involutive.
  - rewrite forallb_forall in *. intros x Hx. apply H. now apply in_rev.
Qed.
End GroupFacts.

Module CharFacts.
Import Chars.


(** A property checked on the 256 characters holds of every character. *)
Lemma every_char (P : ascii -> bool) :
  forallb P all_chars = true -> forall x, P x = true.
Proof.
  intros H x. rewrite forallb_forall in H. apply H.
  unfold all_chars. rewrite <- (ascii_nat_embedding x).
  apply in_map. apply in_seq. pose proof (nat_ascii_bounded x). lia.
Qed.

Ltac by_cases P :=
  let H := fresh in
  intros x; pose proof (every_char P ltac:(vm_compute; reflexivity) x) as H;
  cbv beta in H.

Lemma digit_not_space x : is_digit x = true -> is_space x = false.
Proof.
  revert x. by_cases (fun x => implb (is_digit x) (negb (is_space x))).
  intros D. rewrite D in H. simpl in H. now apply negb_true_iff.
Qed.

Lemma lower_dash x : lower x = "-"%char -> x = "-"%char.
Proof.
  revert x.
  by_cases (fun x => implb (Ascii.eqb (lower x) "-") (Ascii.eqb x "-")).
  intros E. rewrite E in H. simpl in H. now apply Ascii.eqb_eq.
Qed.

Lemma dash_not_space : is_space "-" = false.
Proof. reflexivity. Qed.
End CharFacts.

Module ShapeFacts.
Import Re ReSyntax.

Lemma forallb_impl (P Q : ascii -> bool) (s : str) :
  (forall x, P x = true -> Q x = true) ->
  forallb P s = true -> forallb Q s = true.
Proof.
  intros I H. rewrite forallb_forall in *. auto.
Qed.

Lemma digits_no_space s :
  forallb is_digit s = true -> forallb (fun x => negb (is_space x)) s = true.
Proof.
  apply forallb_impl. intros x D. now rewrite CharFacts.digit_not_space.
Qed.

Lemma accepted_digit ic greedy lo hi x :
  accepted ic (Rep greedy lo hi digit) x = is_digit x.
Proof. unfold accepted. simpl. unfold cset_match. simpl. now rewrite !orb_false_r. Qed.

Lemma rep_digits ic greedy lo hi w rest c c' :
  Matches ic (Rep greedy lo hi digit) w rest c c' ->
  forallb is_digit w = true /\ lo <= List.length w /\
  (forall h, hi = Some h -> List.length w <= h).
Proof.
  intros M. pose proof (GroupFacts.matches_accepted _ _ _ _ _ _ M) as A.
  apply NameFacts.inv_rep in M as (_ & _ & L & U). repeat split; auto.
  revert A. apply forallb_impl. intros x. now rewrite accepted_digit.
Qed.

Lemma is_dash w rest c c' :
  Matches true (text "-") w rest c c' -> w = ["-"%char].
Proof.
  intros M. apply NameFacts.matches_chars in M as [_ E].
  destruct w as [|x [|y w]]; try discriminate.
  simpl in E. inversion E. f_equal. now apply CharFacts.lower_dash.
Qed.

(** The shape of what the date pattern consumes. *)
Lemma iso_date_shape w rest c c' :
  Matches true Patterns.iso_date w rest c c' ->
  exists y m d,
    w = y ++ lit "-" ++ m ++ lit "-" ++ d /\
    List.length y = 4 /\ List.length m = 2 /\ List.length d = 2 /\
    forallb is_digit (y ++ m ++ d) = true.
Proof.
  intros M.
  change Patterns.iso_date
    with (Seq (times 4 digit)
            (Seq (text "-") (Seq (times 2 digit) (Seq (text "-") (times 2 digit)))))
    in M.
  apply NameFacts.inv_seq in M as (y & w1 & c1 & -> & My & M).
  apply NameFacts.inv_seq in M as (d1 & w2 & c2 & -> & Md1 & M).
  apply NameFacts.inv_seq in M as (m & w3 & c3 & -> & Mm & M).
  apply NameFacts.inv_seq in M as (d2 & d & c4 & -> & Md2 & Md).
  apply is_dash in Md1, Md2. subst d1 d2.
  apply rep_digits in My as (Fy & Ly & Uy).
  apply rep_digits in Mm as (Fm & Lm & Um).
  apply rep_digits in Md as (Fd & Ld & Ud).
  specialize (Uy 4 eq_refl). specialize (Um 2 eq_refl). specialize (Ud 2 eq_refl).
  exists y, m, d. repeat split; try lia.
  rewrite !forallb_app, Fy, Fm, Fd. reflexivity.
Qed.
End ShapeFacts.

(** X8. The account number and the invoice number, when extracted, are
    non-empty strings of decimal digits. *)
Theorem identifiers_are_digit_strings (text : str) (pattern : Re.regex) (v : str) :
  In pattern [Patterns.account_number; Patterns.invoice_number] ->
  extract_value text pattern = Ret (Some v) ->
  v <> [] /\ forallb is_digit v = true.
Proof.
  intros Hin E.
  assert (Ha : Re.assigns 1 pattern = true)
    by (destruct Hin as [<-|[<-|[]]]; reflexivity).
  rewrite (ExtractFacts.extract_value_assigned _ _ Ha) in E.
  inversion E as [F]. clear E.
  apply GroupFacts.field_text_body in F
    as (body & g & rest & c0 & c1 & Hb & M & ->).
  assert (Eb : body = Re.plus Re.digit).
  { destruct Hin as [<-|[<-|[]]]; simpl in Hb; destruct Hb as [<-|[]]; reflexivity. }
  subst body. apply ShapeFacts.rep_digits in M as (F & L & _).
  rewrite (GroupFacts.strip_no_space g (ShapeFacts.digits_no_space g F)).
  split; auto. destruct g; simpl in L; [lia | discriminate].
Qed.

Lemma identifiers_are_digit_strings_witness :
  extract_value (lit "Tax Invoice No  0042 ") Patterns.invoice_number
  = Ret (Some (lit "0042"))
  /\ forallb is_digit (lit "0042") = true.
Proof.
  assert (E : extract_value (lit "Tax Invoice No  0042 ") Patterns.invoice_number
              = Ret (Some (lit "0042"))) by (vm_compute; reflexivity).
  split; [exact E|].
  apply (identifiers_are_digit_strings (lit "Tax Invoice No  0042 ")
           Patterns.invoice_number (lit "0042")); [right; left; reflexivity | exact E].
Defined.

(** X9. The billing date and the due date, when extracted, have the form
    DDDD-DD-DD with decimal digits D; nothing else is checked about them. *)
Theorem dates_have_iso_shape (text : str) (pattern : Re.regex) (v : str) :
  In pattern [Patterns.billing_date; Patterns.due_date] ->
  extract_value text pattern = Ret (Some v) ->
  exists y m d,
    v = y ++ lit "-" ++ m ++ lit "-" ++ d /\
    List.length y = 4 /\ List.length m = 2 /\ List.length d = 2 /\
    forallb is_digit (y ++ m ++ d) = true.
Proof.
  intros Hin E.
  assert (Ha : Re.assigns 1 pattern = true)
    by (destruct Hin as [<-|[<-|[]]]; reflexivity).
  rewrite (ExtractFacts.extract_value_assigned _ _ Ha) in E.
  inversion E as [F]. clear E.
  apply GroupFacts.field_text_body in F
    as (body & g & rest & c0 & c1 & Hb & M & ->).
  assert (Eb : body = Patterns.iso_date).
  { destruct Hin as [<-|[<-|[]]]; simpl in Hb; destruct Hb as [<-|[]]; reflexivity. }
  subst body. apply ShapeFacts.iso_date_shape in M
    as (y & m & d & -> & Ly & Lm & Ld & F).
  exists y, m, d. repeat split; auto.
  apply GroupFacts.strip_no_space.
  rewrite !forallb_app in F. apply andb_true_iff in F as [Fy F].
  apply andb_true_iff in F as [Fm Fd].
  rewrite !forallb_app.
  rewrite (ShapeFacts.digits_no_space y Fy), (ShapeFacts.digits_no_space m Fm),
    (ShapeFacts.digits_no_space d Fd).
  reflexivity.
Qed.

Lemma dates_have_iso_shape_witness :
  exists y m d,
    lit "2024-13-99" = y ++ lit "-" ++ m ++ lit "-" ++ d /\
    List.length y = 4 /\ List.length m = 2 /\ List.length d = 2 /\
    forallb is_digit (y ++ m ++ d) = true.
Proof.
  apply (dates_have_iso_shape (lit "Current due date 2024-13-99")
           Patterns.due_date (lit "2024-13-99")).
  - right. left. reflexivity.
  - vm_compute. reflexivity.
Defined.

Module FloatFacts.
Import FloatSign.

Lemma shr_1_nonneg mrs : (0 <= shr_m mrs)%Z -> (0 <= shr_m (shr_1 mrs))%Z.
Proof.
  destruct mrs as [m r s]. simpl.
  destruct m as [|p|p]; simpl; try lia; destruct p; simpl; lia.
Qed.

Lemma iter_shr_1_nonneg p : forall mrs,
  (0 <= shr_m mrs)%Z -> (0 <= shr_m (iter_pos shr_1 p mrs))%Z.
Proof.
  induction p as [p IH|p IH|]; intros mrs H; simpl.
  - apply IH, IH. now apply shr_1_nonneg.
  - apply IH, IH. exact H.
  - now apply shr_1_nonneg.
Qed.

Lemma shr_fexp_nonneg m e l :
  (0 <= m)%Z -> (0 <= shr_m (fst (shr_fexp PyFloat.prec PyFloat.emax m e l)))%Z.
Proof.
  intros H. unfold shr_fexp, shr.
  assert (H0 : (0 <= shr_m (shr_record_of_loc m l))%Z)
    by (destruct l as [|[]]; simpl; exact H).
  destruct (_ - e)%Z; simpl; auto. now apply iter_shr_1_nonneg.
Qed.

Lemma round_nearest_even_nonneg m l :
  (0 <= m)%Z -> (0 <= round_nearest_even m l)%Z.
Proof.
  intros H. unfold round_nearest_even.
  destruct l as [|[]]; try lia. destruct (Z.even m); lia.
Qed.

(** Rounding a non-negative mantissa gives a number with the sign asked
    for. *)
Lemma binary_round_aux_signed sx mx ex lx :
  (0 <= mx)%Z -> signed sx (binary_round_aux PyFloat.prec PyFloat.emax sx mx ex lx).
Proof.
  intros H. unfold binary_round_aux.
  pose proof (shr_fexp_nonneg mx ex lx H) as H1.
  destruct (shr_fexp PyFloat.prec PyFloat.emax mx ex lx) as [mrs' e'].
  simpl in H1.
  pose proof (shr_fexp_nonneg _ e' loc_Exact
                (round_nearest_even_nonneg _ (loc_of_shr_record mrs') H1)) as H2.
  destruct (shr_fexp PyFloat.prec PyFloat.emax
              (round_nearest_even (shr_m mrs') (loc_of_shr_record mrs')) e' loc_Exact)
    as [mrs'' e''].
  simpl in H2. unfold signed.
  destruct (shr_m mrs'') as [|p|p]; simpl; auto; [|lia].
  destruct (e'' <=? _)%Z; simpl; auto.
Qed.

(** A decimal converts to a number with the sign asked for. *)
Lemma of_decimal_signed neg d e : signed neg (PyFloat.of_decimal neg d e).
Proof.
  unfold PyFloat.of_decimal.
  destruct d as [|p|p]; try (split; reflexivity).
  destruct (0 <=? e)%Z eqn:E.
  - apply Z.leb_le in E.
    assert (P : (0 < Z.pos p * 10 ^ e)%Z)
      by (apply Z.mul_pos_pos; [lia | apply Z.pow_pos_nonneg; lia]).
    destruct (Z.pos p * 10 ^ e)%Z as [|q|q] eqn:Q; try lia.
    destruct neg; simpl; unfold binary_round;
      destruct (shl_align _ _ _) as [mz ez];
      apply binary_round_aux_signed; lia.
  - unfold SFdiv_core_binary.
    set (m' := match _ with Z.pos _ => _ | _ => _ end).
    assert (M : (0 <= m')%Z).
    { unfold m'. destruct (_ - _ - _)%Z; try lia.
      apply Z.shiftl_nonneg. lia. }
    assert (T : (0 < 10 ^ (- e))%Z)
      by (apply Z.leb_gt in E; apply Z.pow_pos_nonneg; lia).
    pose proof (Z.div_pos m' (10 ^ (- e)) M T) as Q.
    unfold Z.div in Q.
    destruct (Z.div_eucl m' (10 ^ (- e))) as [q r]. simpl in Q.
    now apply binary_round_aux_signed.
Qed.
End FloatFacts.

Module ParseFacts.
Import FloatSign Amount.

Lemma amount_char_facts x :
  amount_char x = true ->
  (127 <=? code x)%N = false /\ PyFloat.is_float_space x = false /\
  Ascii.eqb x PyFloat.underscore = false /\ Ascii.eqb x "+"%char = false /\
  Ascii.eqb (lower x) "i"%char = false /\ Ascii.eqb (lower x) "n"%char = false /\
  is_space x = false.
Proof.
  revert x.
  CharFacts.by_cases
    (fun x => implb (amount_char x)
                (negb (127 <=? code x)%N && negb (PyFloat.is_float_space x)
                 && negb (Ascii.eqb x PyFloat.underscore)
                 && negb (Ascii.eqb x "+"%char)
                 && negb (Ascii.eqb (lower x) "i"%char)
                 && negb (Ascii.eqb (lower x) "n"%char)
                 && negb (is_space x))).
  intros A. rewrite A in H. simpl in H.
  rewrite !andb_true_iff, !negb_true_iff in H. tauto.
Qed.

Lemma drop_underscores_none_needed s : forall prev,
  forallb amount_char s = true ->
  match prev with Some p => Ascii.eqb p PyFloat.underscore = false | None => True end ->
  PyFloat.drop_underscores prev s = Some s.
Proof.
  induction s as [|c s IH]; intros prev F P; simpl.
  - destruct prev as [p|]; [now rewrite P | reflexivity].
  - simpl in F. apply andb_true_iff in F as [Fc F].
    destruct (amount_char_facts c Fc) as (_ & _ & U & _).
    rewrite U.
    assert (A : match prev with
                | Some p => Ascii.eqb p PyFloat.underscore
                | None => false
                end = false) by (destruct prev; auto).
    rewrite A. simpl. rewrite (IH (Some c) F U). reflexivity.
Qed.

Lemma lstrip_float_id s :
  forallb amount_char s = true -> PyFloat.lstrip_float s = s.
Proof.
  destruct s as [|c s]; simpl; auto. intros F.
  apply andb_true_iff in F as [Fc _].
  destruct (amount_char_facts c Fc) as (_ & S & _). now rewrite S.
Qed.

Lemma strip_float_id s :
  forallb amount_char s = true -> PyFloat.strip_float s = s.
Proof.
  intros F. unfold PyFloat.strip_float. rewrite (lstrip_float_id s F).
  rewrite lstrip_float_id.
  - apply rev_involutive.
  - rewrite forallb_forall in *. intros x Hx. apply F. now apply in_rev.
Qed.

Lemma read_special_none neg s :
  forallb amount_char s = true -> PyFloat.read_special neg s = None.
Proof.
  intros F. unfold PyFloat.read_special.
  assert (N : forall l : string,
             match lit l with
             | c :: _ => c = "i"%char \/ c = "n"%char
             | [] => False
             end ->
             PyStr.eqb (map lower s) (lit l) = false).
  { intros l Hl. destruct (PyStr.eqb (map lower s) (lit l)) eqn:E; auto.
    apply RunFacts.eqb_eq in E. rewrite <- E in Hl.
    destruct s as [|c s]; simpl in Hl; [contradiction|].
    simpl in F. apply andb_true_iff in F as [Fc _].
    destruct (amount_char_facts c Fc) as (_ & _ & _ & _ & I & Nn & _).
    destruct Hl as [Hl|Hl]; rewrite Hl in *; discriminate. }
  rewrite !N; simpl; auto.
Qed.

Lemma read_finite_signed neg s x :
  PyFloat.read_finite neg s = Some x -> signed neg x.
Proof.
  unfold PyFloat.read_finite.
  destruct (PyFloat.span_digits s) as [ip r].
  destruct (match r with
            | [] => ([], [])
            | c :: r1 => if Ascii.eqb c "." then PyFloat.span_digits r1 else ([], r)
            end) as [fp r'].
  destruct (ip ++ fp); [discriminate|].
  destruct (PyFloat.read_exponent r'); [|discriminate].
  intros E. inversion E. apply FloatFacts.of_decimal_signed.
Qed.

(** Reading an amount: the result, if any, is a number whose sign is the
    leading minus of the string. *)
Lemma of_str_amount s x :
  forallb amount_char s = true -> PyFloat.of_str s = Some x ->
  signed (starts_with_minus s) x.
Proof.
  intros F. unfold PyFloat.of_str.
  assert (E1 : existsb (fun c => (127 <=? code c)%N
                                 && negb (PyFloat.is_float_space c)) s = false).
  { apply not_true_is_false. intros H. apply existsb_exists in H as (c & Hc & H).
    rewrite forallb_forall in F. destruct (amount_char_facts c (F c Hc)) as (A & _).
    rewrite A in H. discriminate. }
  rewrite E1, (drop_underscores_none_needed s None F I), (strip_float_id s F).
  destruct s as [|c s]; simpl.
  - discriminate.
  - simpl in F. apply andb_true_iff in F as [Fc F].
    destruct (amount_char_facts c Fc) as (_ & _ & _ & P & _).
    rewrite P.
    destruct (Ascii.eqb c "-") eqn:M.
    + destruct (PyFloat.read_finite true s) as [y|] eqn:R.
      * intros E. inversion E; subst. eapply read_finite_signed; eauto.
      * rewrite (read_special_none true s F). discriminate.
    + destruct (PyFloat.read_finite false (c :: s)) as [y|] eqn:R.
      * intros E. inversion E; subst. eapply read_finite_signed; eauto.
      * rewrite (read_special_none false (c :: s)); [discriminate|].
        simpl. now rewrite Fc, F.
Qed.

Lemma remove_commas_chars (P : ascii -> bool) s :
  forallb (fun x => P x || Ascii.eqb x ","%char) s = true ->
  forallb P (remove_char ","%char s) = true.
Proof.
  induction s as [|c s IH]; simpl; auto. intros F.
  apply andb_true_iff in F as [Fc F].
  destruct (Ascii.eqb c ",") eqn:E; simpl; auto.
  rewrite orb_false_r in Fc. now rewrite Fc, IH.
Qed.
End ParseFacts.

Module NumericFacts.
Import Re ReSyntax FloatSign Amount.


Lemma reading_class_chars x :
  cset_match true reading_class x = true ->
  reading_char x || Ascii.eqb x ","%char = true.
Proof.
  revert x.
  CharFacts.by_cases
    (fun x => implb (cset_match true reading_class x)
                (reading_char x || Ascii.eqb x ","%char)).
  intros A. rewrite A in H. exact H.
Qed.

Lemma amount_class_chars x :
  cset_match true Patterns.amount_char x = true ->
  amount_char x || Ascii.eqb x ","%char = true.
Proof.
  revert x.
  CharFacts.by_cases
    (fun x => implb (cset_match true Patterns.amount_char x)
                (amount_char x || Ascii.eqb x ","%char)).
  intros A. rewrite A in H. exact H.
Qed.

Lemma class_no_space x :
  amount_char x || Ascii.eqb x ","%char = true -> is_space x = false.
Proof.
  revert x.
  CharFacts.by_cases
    (fun x => implb (amount_char x || Ascii.eqb x ","%char) (negb (is_space x))).
  intros A. rewrite A in H. now apply negb_true_iff.
Qed.

Lemma reading_is_amount x : reading_char x = true -> amount_char x = true.
Proof. unfold reading_char, amount_char. intros ->. reflexivity. Qed.

Lemma reading_no_minus s :
  forallb reading_char s = true -> starts_with_minus s = false.
Proof.
  destruct s as [|c s]; simpl; auto. intros F.
  apply andb_true_iff in F as [Fc _]. revert Fc. revert c.
  CharFacts.by_cases (fun x => implb (reading_char x) (negb (Ascii.eqb x "-"%char))).
  intros A. rewrite A in H. now apply negb_true_iff.
Qed.

(** The number a captured amount stands for is not NaN, and it carries a
    minus sign only if the string starts with one. *)
Lemma number_of_amount g :
  forallb (fun x => amount_char x || Ascii.eqb x ","%char) g = true ->
  is_nan (number_of (Some g)) = false /\
  (forallb (fun x => reading_char x || Ascii.eqb x ","%char) g = true ->
   sign_bit (number_of (Some g)) = false).
Proof.
  intros F. unfold number_of, parse_number.
  destruct (is_blank g); [split; reflexivity|].
  destruct (PyFloat.of_str (remove_char "," g)) as [x|] eqn:E;
    [|split; reflexivity].
  pose proof (ParseFacts.remove_commas_chars amount_char g F) as Fa.
  destruct (ParseFacts.of_str_amount _ x Fa E) as [N S].
  split; auto. intros Fr.
  pose proof (ParseFacts.remove_commas_chars reading_char g Fr) as Fr'.
  now rewrite S, reading_no_minus.
Qed.

Lemma strip_class g :
  forallb (fun x => amount_char x || Ascii.eqb x ","%char) g = true ->
  strip g = g.
Proof.
  intros F. apply GroupFacts.strip_no_space.
  revert F. apply ShapeFacts.forallb_impl. intros x A.
  now rewrite class_no_space.
Qed.

Lemma reading_value p txt :
  bodies 1 p = [Alt (plus reading_class) (Re.text "-")] ->
  signed false (number_of (field_text p txt)).
Proof.
  intros Eb.
  destruct (field_text p txt) as [v|] eqn:F; [|split; reflexivity].
  apply GroupFacts.field_text_body in F
    as (body & g & rest & c0 & c1 & Hb & M & ->).
  rewrite Eb in Hb. destruct Hb as [<-|[]].
  apply NameFacts.inv_alt in M as [M|M].
  - pose proof (GroupFacts.matches_accepted _ _ _ _ _ _ M) as A.
    assert (Fr : forallb (fun x => reading_char x || Ascii.eqb x ","%char) g = true).
    { revert A. apply ShapeFacts.forallb_impl. intros x Hx.
      apply reading_class_chars. unfold accepted in Hx. simpl in Hx.
      now rewrite orb_false_r in Hx. }
    assert (Fa : forallb (fun x => amount_char x || Ascii.eqb x ","%char) g = true).
    { revert Fr. apply ShapeFacts.forallb_impl. intros x Hx.
      apply orb_true_iff in Hx as [Hx|Hx].
      - now rewrite (reading_is_amount x Hx).
      - rewrite Hx. apply orb_true_r. }
    rewrite (strip_class g Fa).
    destruct (number_of_amount g Fa) as [N S]. split; auto.
  - apply ShapeFacts.is_dash in M. subst g. split; reflexivity.
Qed.

Lemma amount_value p txt :
  bodies 1 p = [plus Patterns.amount_char] ->
  is_nan (number_of (field_text p txt)) = false.
Proof.
  intros Eb.
  destruct (field_text p txt) as [v|] eqn:F; [|reflexivity].
  apply GroupFacts.field_text_body in F
    as (body & g & rest & c0 & c1 & Hb & M & ->).
  rewrite Eb in Hb. destruct Hb as [<-|[]].
  pose proof (GroupFacts.matches_accepted _ _ _ _ _ _ M) as A.
  assert (Fa : forallb (fun x => amount_char x || Ascii.eqb x ","%char) g = true).
  { revert A. apply ShapeFacts.forallb_impl. intros x Hx.
    apply amount_class_chars. unfold accepted in Hx. simpl in Hx.
    now rewrite orb_false_r in Hx. }
  rewrite (strip_class g Fa). apply (number_of_amount g Fa).
Qed.
End NumericFacts.

(** X10. In every record of a processed document the six numeric entries
    are numbers, never NaN; the readings, the consumption and the two
    charges are moreover never negative (the amount due may be). *)
Theorem numeric_entries_are_numbers (f : pdf_file) (w w' : world) :
  process_pdf f w = (Ret true, w') ->
  exists d,
    data w' = data w ++ [d] /\
    forall k p, In (k, p) numeric_fields ->
      exists x,
        dict_get k d = Some (VFloat x) /\
        FloatSign.is_nan x = false /\
        (k <> lit "total_due" -> FloatSign.sign_bit x = false).
Proof.
  rewrite RunFacts.process_pdf_run.
  destruct (read_text f) as [txt|e]; [|discriminate].
  intros H. inversion H; subst w'; clear H.
  exists (record_of txt). split; [reflexivity|].
  intros k p Hin. rewrite (RecordFacts.get_numeric txt k p Hin).
  eexists. split; [reflexivity|].
  unfold numeric_fields in Hin. simpl in Hin.
  destruct Hin as [E|[E|[E|[E|[E|[E|[]]]]]]]; inversion E; subst k p; clear E.
  - destruct (NumericFacts.reading_value Patterns.opening_reading txt eq_refl); auto.
  - destruct (NumericFacts.reading_value Patterns.closing_reading txt eq_refl); auto.
  - destruct (NumericFacts.reading_value Patterns.consumption txt eq_refl); auto.
  - split; [|intros X; exfalso; apply X; reflexivity].
    apply (NumericFacts.amount_value Patterns.total_due txt eq_refl).
  - destruct (NumericFacts.reading_value Patterns.network_charge txt eq_refl); auto.
  - destruct (NumericFacts.reading_value Patterns.energy_charge txt eq_refl); auto.
Qed.

Lemma numeric_entries_are_numbers_witness :
  exists d,
    data (snd (process_pdf (Samples.good "jan.pdf") empty_world)) = [d] /\
    exists x, dict_get (lit "opening_reading") d = Some (VFloat x) /\
              FloatSign.sign_bit x = false.
Proof.
  destruct (numeric_entries_are_numbers (Samples.good "jan.pdf") empty_world
              (snd (process_pdf (Samples.good "jan.pdf") empty_world)))
    as (d & Hd & H).
  - vm_compute. reflexivity.
  - exists d. split; [exact Hd|].
    destruct (H (lit "opening_reading") Patterns.opening_reading)
      as (x & Hx & _ & S).
    + left. reflexivity.
    + exists x. split; [exact Hx|]. apply S. discriminate.
Defined.

Module BillFacts.
Import BillData.

Lemma float_of_match_cases commas p txt :
  Re.assigns 1 p = true ->
  (Re.search false p txt = None
   /\ float_of_match commas (Re.search false p txt) = Ret VNone)
  \/ (exists m g,
        Re.search false p txt = Some m /\ Re.lookup 1 (Re.m_caps m) = Some g /\
        float_of_match commas (Re.search false p txt)
        = match PyFloat.of_str (number_text commas g) with
          | Some x => Ret (VFloat x)
          | None => Raise not_a_number
          end).
Proof.
  intros Ha. destruct (Re.search false p txt) as [m|] eqn:Hs; [right | left; auto].
  destruct (ExtractFacts.search_group1 _ _ _ _ Ha Hs) as [Hn [g Hg]].
  exists m, g. repeat split; auto.
  unfold float_of_match, group, number_text. rewrite Hn, Hg.
  destruct commas; simpl; destruct (PyFloat.of_str _); reflexivity.
Qed.

Lemma total_charges_nonempty txt :
  field_text Patterns.total_charges txt <> Some [].
Proof.
  intros F. apply GroupFacts.field_text_body in F
    as (body & g & rest & c0 & c1 & Hb & M & E).
  simpl in Hb. destruct Hb as [<-|[]].
  pose proof (GroupFacts.matches_accepted _ _ _ _ _ _ M) as A.
  pose proof (GroupFacts.matches_min_len _ _ _ _ _ _ M) as L. simpl in L.
  assert (Fa : forallb (fun x => Amount.amount_char x || Ascii.eqb x ","%char) g = true).
  { revert A. apply ShapeFacts.forallb_impl. intros x Hx.
    apply NumericFacts.amount_class_chars. unfold ReSyntax.accepted in Hx.
    simpl in Hx. now rewrite orb_false_r in Hx. }
  rewrite (NumericFacts.strip_class g Fa) in E. subst g. simpl in L. lia.
Qed.

Lemma calculate_vat_float x :
  calculate_vat (VFloat x)
  = Ret (Some (PyFloat.round2 (PyFloat.mul x vat_rate))).
Proof. reflexivity. Qed.


Lemma bind_value_or_ValueError {A B} (c : outcome A) (f : A -> outcome B) :
  value_or_ValueError c -> (forall a, value_or_ValueError (f a)) ->
  value_or_ValueError (bind c f).
Proof.
  intros [[a ->] | (e & -> & He)] Hf; cbn; [apply Hf|].
  right. eauto.
Qed.

Lemma ret_value {A} (a : A) : value_or_ValueError (Ret a).
Proof. left. eauto. Qed.

Lemma float_str_value s : value_or_ValueError (float_ (VStr s)).
Proof.
  unfold float_. destruct (PyFloat.of_str s); [left; eauto|].
  right. eexists. split; reflexivity.
Qed.

Lemma float_of_match_value commas p txt :
  Re.assigns 1 p = true ->
  value_or_ValueError (float_of_match commas (Re.search false p txt)).
Proof.
  intros Ha.
  destruct (float_of_match_cases commas p txt Ha)
    as [[_ ->] | (m & g & _ & _ & ->)]; [apply ret_value|].
  destruct (PyFloat.of_str _); [apply ret_value|].
  right. eexists. split; reflexivity.
Qed.
End BillFacts.

(** X11. [extract_bill_data] either returns a dictionary or raises a
    [ValueError] that it does not catch: it raises whenever the captured
    consumption is not a number, where [process_pdf] would store 0.0. *)
Theorem extract_bill_data_raises_only_ValueError (text : str) :
  ((exists d, extract_bill_data text = Ret d)
   \/ (exists e, extract_bill_data text = Raise e /\ exc_cls e = ValueError))
  /\ (forall m g,
        Re.search false Patterns.bill_consumption text = Some m ->
        Re.lookup 1 (Re.m_caps m) = Some g ->
        PyFloat.of_str (remove_char ","%char g) = None ->
        extract_bill_data text = Raise BillData.not_a_number).
Proof.
  unfold extract_bill_data.
  rewrite !ExtractFacts.extract_value_assigned by reflexivity.
  change (clean_customer_name text)
    with (extract_value text Patterns.clean_name).
  rewrite ExtractFacts.extract_value_assigned by reflexivity.
  cbn [bind outcome_monad]. split.
  - change (BillData.value_or_ValueError
              (bind (float_of_match true
                       (Re.search false Patterns.bill_consumption text))
                 (fun consumption =>
                    bind (float_of_match false
                            (Re.search false Patterns.network_rate text))
                      (fun network_rate =>
                         bind (match field_text Patterns.total_charges text with
                               | Some ((_ :: _) as s) =>
                                   bind (float_ (VStr (remove_char ","%char s)))
                                     (fun x =>
                                        bind (calculate_vat (VFloat x))
                                          (fun vat_amount =>
                                             ret (VFloat x, of_float_option vat_amount)))
                               | _ => ret (of_option (field_text Patterns.total_charges text), VNone)
                               end)
                           (fun charges =>
                              ret [ (lit "account_number", of_option (field_text Patterns.account_number text));
                                    (lit "billing_date", of_option (field_text Patterns.billing_date text));
                                    (lit "invoice_number", of_option (field_text Patterns.invoice_number text));
                                    (lit "account_month", of_option (field_text Patterns.account_month text));
                                    (lit "customer_name", of_option (field_text Patterns.clean_name text));
                                    (lit "consumption", consumption);
                                    (lit "network_rate", network_rate);
                                    (lit "total_charges", fst charges);
                                    (lit "vat_amount", snd charges);
                                    (lit "reading_type", of_option (field_text Patterns.reading_type text)) ]))))).
    apply BillFacts.bind_value_or_ValueError;
      [now apply BillFacts.float_of_match_value | intros consumption].
    apply BillFacts.bind_value_or_ValueError;
      [now apply BillFacts.float_of_match_value | intros network_rate].
    apply BillFacts.bind_value_or_ValueError; [|intros; apply BillFacts.ret_value].
    destruct (field_text Patterns.total_charges text) as [[|c s]|];
      try apply BillFacts.ret_value.
    apply BillFacts.bind_value_or_ValueError; [apply BillFacts.float_str_value|].
    intros x. rewrite BillFacts.calculate_vat_float. apply BillFacts.ret_value.
  - intros m g Hs Hg Hp.
    destruct (BillFacts.float_of_match_cases true Patterns.bill_consumption text eq_refl)
      as [[S1 _] | (m1 & g1 & S1 & G1 & E1)]; [congruence|].
    rewrite E1. rewrite S1 in Hs. inversion Hs; subst m.
    rewrite G1 in Hg. inversion Hg; subst g.
    unfold BillData.number_text. rewrite Hp. reflexivity.
Qed.

Lemma extract_bill_data_raises_only_ValueError_witness :
  extract_bill_data (lit "TOTAL ENERGY CONSUMED (kWh) 1.2.3")
  = Raise BillData.not_a_number.
Proof.
  destruct (extract_bill_data_raises_only_ValueError
              (lit "TOTAL ENERGY CONSUMED (kWh) 1.2.3")) as [_ H].
  destruct (Re.search false Patterns.bill_consumption
              (lit "TOTAL ENERGY CONSUMED (kWh) 1.2.3")) as [m|] eqn:Hs.
  - apply (H m (lit "1.2.3") eq_refl).
    + vm_compute in Hs. inversion Hs. reflexivity.
    + vm_compute. reflexivity.
  - vm_compute in Hs. discriminate Hs.
Defined.

(** X12. A dictionary returned by [extract_bill_data] has its ten keys, and
    its VAT amount goes with its total charges: both are null, or the total
    is a float and the VAT amount is 15% of it rounded to two decimals. *)
Theorem extract_bill_data_vat_follows_total (text : str) (d : dict) :
  extract_bill_data text = Ret d ->
  keys d = BillData.keys /\
  ((dict_get (lit "total_charges") d = Some VNone /\
    dict_get (lit "vat_amount") d = Some VNone)
   \/ exists x,
        dict_get (lit "total_charges") d = Some (VFloat x) /\
        dict_get (lit "vat_amount") d
        = Some (VFloat (PyFloat.round2 (PyFloat.mul x vat_rate)))).
Proof.
  unfold extract_bill_data.
  rewrite !ExtractFacts.extract_value_assigned by reflexivity.
  change (clean_customer_name text)
    with (extract_value text Patterns.clean_name).
  rewrite ExtractFacts.extract_value_assigned by reflexivity.
  cbn [bind outcome_monad].
  destruct (float_of_match true _) as [cons|e]; [|discriminate].
  destruct (float_of_match false _) as [rate|e]; [|discriminate].
  pose proof (BillFacts.total_charges_nonempty text) as NE.
  destruct (field_text Patterns.total_charges text) as [[|c s]|];
    [exfalso; apply NE; reflexivity | |].
  - destruct (float_ _) as [x|e]; [|discriminate].
    rewrite BillFacts.calculate_vat_float. cbn.
    intros E. inversion E. split; [reflexivity|]. right. exists x. split; reflexivity.
  - cbn. intros E. inversion E. split; [reflexivity|]. left. split; reflexivity.
Qed.

Lemma extract_bill_data_vat_follows_total_witness :
  match extract_bill_data (lit "TOTAL CHARGES FOR BILLING PERIOD R 1,000.00") with
  | Ret d =>
      keys d = BillData.keys /\
      ((dict_get (lit "total_charges") d = Some VNone /\
        dict_get (lit "vat_amount") d = Some VNone)
       \/ exists x,
            dict_get (lit "total_charges") d = Some (VFloat x) /\
            dict_get (lit "vat_amount") d
            = Some (VFloat (PyFloat.round2 (PyFloat.mul x vat_rate))))
  | Raise _ => False
  end.
Proof.
  destruct (extract_bill_data (lit "TOTAL CHARGES FOR BILLING PERIOD R 1,000.00"))
    as [d|e] eqn:E.
  - exact (extract_bill_data_vat_follows_total _ d E).
  - vm_compute in E. discriminate E.
Defined.

Module MoreFacts.

Lemma remove_char_idem c s : remove_char c (remove_char c s) = remove_char c s.
Proof.
  unfold remove_char. induction s as [|x s IH]; simpl; auto.
  destruct (Ascii.eqb x c) eqn:E; simpl; auto. now rewrite E, IH.
Qed.

Lemma number_of_commas s :
  number_of (Some (remove_char ","%char s)) = number_of (Some s).
Proof.
  unfold number_of, parse_number. rewrite remove_char_idem.
  destruct (is_blank s) eqn:B.
  - apply RunFacts.is_blank_spec in B as [->| ->]; reflexivity.
  - destruct (is_blank (remove_char "," s)) eqn:B'; auto.
    apply RunFacts.is_blank_spec in B' as [->| ->]; reflexivity.
Qed.

Lemma extract_all_texts ts :
  extract_all (map (fun t => Text (Some t)) ts) = Ret (map Some ts).
Proof. induction ts as [|t ts IH]; simpl; auto. now rewrite IH. Qed.

Lemma check_strs_texts ts : forall i, check_strs i (map Some ts) = Ret ts.
Proof. induction ts as [|t ts IH]; intros i; simpl; auto. now rewrite IH. Qed.

Lemma extract_all_ret pages items :
  extract_all pages = Ret items -> pages = map Text items.
Proof.
  revert items. induction pages as [|p pages IH]; intros items H; simpl in H.
  - inversion H. reflexivity.
  - destruct p as [t|e]; simpl in H; [|discriminate].
    destruct (extract_all pages) as [ts|e]; simpl in H; [|discriminate].
    inversion H. simpl. now rewrite (IH ts eq_refl).
Qed.

Lemma check_strs_ret items : forall i l,
  check_strs i items = Ret l -> items = map Some l.
Proof.
  induction items as [|[s|] items IH]; intros i l H; simpl in H.
  - inversion H. reflexivity.
  - destruct (check_strs (S i) items) as [l'|e] eqn:E; simpl in H; [|discriminate].
    inversion H. simpl. now rewrite (IH _ _ E).
  - discriminate.
Qed.

Lemma warnings_of_length raw : List.length (warnings_of raw) <= 1.
Proof.
  unfold warnings_of. destruct raw as [s|]; simpl; auto.
  destruct (is_blank s); simpl; auto. destruct (parse_number s); simpl; auto.
Qed.

Lemma warnings_length txt : List.length (warnings txt) <= 6.
Proof.
  unfold warnings, numeric_fields. simpl. rewrite !length_app. simpl.
  pose proof (warnings_of_length (field_text Patterns.opening_reading txt)).
  pose proof (warnings_of_length (field_text Patterns.closing_reading txt)).
  pose proof (warnings_of_length (field_text Patterns.consumption txt)).
  pose proof (warnings_of_length (field_text Patterns.total_due txt)).
  pose proof (warnings_of_length (field_text Patterns.network_charge txt)).
  pose proof (warnings_of_length (field_text Patterns.energy_charge txt)).
  lia.
Qed.

(** A capture set by a match is a piece of the text the match consumed. *)
Lemma capture_within ic g r w rest c c' :
  Re.Matches ic r w rest c c' ->
  forall v, Re.lookup g c' = Some v ->
    Re.lookup g c = Some v \/ exists a b, w = a ++ v ++ b.
Proof.
  induction 1; intros v Hv; auto.
  - destruct (IHMatches2 v Hv) as [H1 | (a & b & ->)].
    + destruct (IHMatches1 v H1) as [H2 | (a & b & ->)]; auto.
      right. exists a, (b ++ w2). now rewrite <- !app_assoc.
    + right. exists (w1 ++ a), b. now rewrite <- !app_assoc.
  - simpl in Hv. destruct (Nat.eqb n g).
    + inversion Hv; subst. right. exists [], []. now rewrite app_nil_r.
    + auto.
Qed.
End MoreFacts.

(** X13. Thousands separators do not matter to numeric normalization: a
    string and the same string without its commas normalize to the same
    number. *)
Theorem clean_numeric_value_ignores_commas (s : str) (w : world) :
  fst (clean_numeric_value (VStr (remove_char ","%char s)) w)
  = fst (clean_numeric_value (VStr s) w).
Proof.
  change (VStr (remove_char ","%char s))
    with (of_option (Some (remove_char ","%char s))).
  change (VStr s) with (of_option (Some s)).
  rewrite !RunFacts.clean_numeric_value_run.
  cbn [fst]. now rewrite MoreFacts.number_of_commas.
Qed.

(** X14. The text of a document can be read exactly when the file opens and
    every page yields a string; it is then the page texts joined by
    newlines, in page order. *)
Theorem read_text_joins_page_texts (f : pdf_file) (text : str) :
  read_text f = Ret text <->
  exists ts, content f = Document (map (fun t => Text (Some t)) ts)
             /\ text = join ["010"%char] ts.
Proof.
  unfold read_text, open_. split.
  - destruct (content f) as [e|pages]; [discriminate|]. cbn [bind outcome_monad].
    destruct (extract_all pages) as [items|e] eqn:E; [|discriminate].
    unfold join_. cbn [bind outcome_monad].
    destruct (check_strs 0 items) as [l|e] eqn:C; [|discriminate].
    intros H. inversion H. exists l. split; auto.
    rewrite (MoreFacts.extract_all_ret _ _ E), (MoreFacts.check_strs_ret _ _ _ C).
    now rewrite map_map.
  - intros (ts & -> & ->). cbn [bind outcome_monad].
    rewrite MoreFacts.extract_all_texts. unfold join_. cbn [bind outcome_monad].
    now rewrite MoreFacts.check_strs_texts.
Qed.

(** X15. Handling one document prints little: exactly one error line when
    it fails, and otherwise only conversion warnings, at most one for each of
    the six numeric fields. *)
Theorem process_pdf_prints_little (f : pdf_file) (w : world) :
  exists lines,
    stdout (snd (process_pdf f w)) = stdout w ++ lines /\
    (fst (process_pdf f w) = Ret false -> List.length lines = 1) /\
    (fst (process_pdf f w) = Ret true ->
     List.length lines <= 6 /\
     forall line, In line lines -> exists s, line = conversion_warning s).
Proof.
  rewrite RunFacts.process_pdf_run. destruct (read_text f) as [txt|e]; cbn.
  - exists (warnings txt). repeat split; try discriminate.
    + apply MoreFacts.warnings_length.
    + intros line Hin. unfold warnings in Hin. apply in_flat_map in Hin
        as (fld & _ & Hin).
      unfold warnings_of in Hin. destruct (field_text _ txt) as [s|]; [|contradiction].
      destruct (is_blank s); [contradiction|].
      destruct (parse_number s); [contradiction|].
      destruct Hin as [<-|[]]. exists s. reflexivity.
  - eexists. repeat split; try discriminate.
Qed.

(** X16. What [extract_value] returns is copied from the document: it
    occurs in the text as it stands, and it has no white space at either
    end. *)
Theorem extract_value_copies_text (text : str) (pattern : Re.regex) (v : str) :
  Re.assigns 1 pattern = true ->
  extract_value text pattern = Ret (Some v) ->
  (exists a b, text = a ++ v ++ b) /\ trimmed v = true.
Proof.
  intros Ha E. rewrite (ExtractFacts.extract_value_assigned _ _ Ha) in E.
  inversion E as [F]. clear E. unfold field_text in F.
  destruct (Re.search true pattern text) as [m|] eqn:Hs; [|discriminate].
  destruct (Re.lookup 1 (Re.m_caps m)) as [g|] eqn:Hg; [|discriminate].
  inversion F; subst v. split; [|apply StripFacts.strip_trimmed].
  apply ReFacts.search_from_some in Hs as (pre & rest & -> & _ & M & _ & _).
  destruct (MoreFacts.capture_within _ 1 _ _ _ _ _ M g Hg)
    as [H | (a & b & ->)]; [discriminate|].
  destruct (StripFacts.strip_split g) as (sa & sb & Eg & _ & _).
  exists (pre ++ a ++ sa), (sb ++ b ++ rest).
  rewrite Eg at 1. now rewrite <- !app_assoc.
Qed.

Lemma extract_value_copies_text_witness :
  (exists a b, lit "Account month   MARCH 2024  " = a ++ lit "MARCH 2024" ++ b)
  /\ trimmed (lit "MARCH 2024") = true.
Proof.
  apply (extract_value_copies_text (lit "Account month   MARCH 2024  ")
           Patterns.account_month (lit "MARCH 2024") eq_refl).
  vm_compute. reflexivity.
Defined.

Module CaseFacts.
Import Re Case.

Lemma lower_facts x :
  lower (lower x) = lower x /\ is_digit (lower x) = is_digit x /\
  is_alnum (lower x) || Ascii.eqb (lower x) "_"%char
  = is_alnum x || Ascii.eqb x "_"%char /\
  is_space (lower x) = is_space x /\
  Ascii.eqb (lower x) "010"%char = Ascii.eqb x "010"%char.
Proof.
  revert x.
  CharFacts.by_cases
    (fun x => Ascii.eqb (lower (lower x)) (lower x)
              && Bool.eqb (is_digit (lower x)) (is_digit x)
              && Bool.eqb (is_alnum (lower x) || Ascii.eqb (lower x) "_"%char)
                   (is_alnum x || Ascii.eqb x "_"%char)
              && Bool.eqb (is_space (lower x)) (is_space x)
              && Bool.eqb (Ascii.eqb (lower x) "010"%char) (Ascii.eqb x "010"%char)).
  rewrite !andb_true_iff in H. destruct H as [[[[H1 H2] H3] H4] H5].
  apply Ascii.eqb_eq in H1. apply Bool.eqb_prop in H2, H3, H4, H5. auto.
Qed.

Lemma item_match_lower it x : item_match true it (lower x) = item_match true it x.
Proof.
  destruct (lower_facts x) as (L & D & W & S & _).
  destruct it; simpl; rewrite ?L; auto.
Qed.

Lemma cset_match_lower cs x : cset_match true cs (lower x) = cset_match true cs x.
Proof.
  unfold cset_match. f_equal. induction (items cs) as [|it l IH]; simpl; auto.
  now rewrite item_match_lower, IH.
Qed.

Lemma cset_match_same cs x y :
  lower x = lower y -> cset_match true cs x = cset_match true cs y.
Proof.
  intros E. rewrite <- (cset_match_lower cs x), <- (cset_match_lower cs y).
  now rewrite E.
Qed.

Lemma same_sym s s' : same_up_to_case s s' -> same_up_to_case s' s.
Proof. induction 1; constructor; auto. Qed.

Lemma same_lower s : same_up_to_case s (map lower s).
Proof.
  induction s as [|x s IH]; constructor; auto.
  destruct (lower_facts x) as (L & _). now rewrite L.
Qed.

Lemma at_end_same s s' : same_up_to_case s s' -> at_end s = at_end s'.
Proof.
  intros H. destruct H as [|x y s s' E H]; auto.
  destruct H; simpl; auto.
  destruct (lower_facts x) as (_ & _ & _ & _ & <-).
  destruct (lower_facts y) as (_ & _ & _ & _ & <-). now rewrite E.
Qed.

Lemma forallb_same cs w w2 :
  same_up_to_case w w2 ->
  forallb (cset_match true cs) w = forallb (cset_match true cs) w2.
Proof.
  induction 1 as [|x y w w2 E H IH]; simpl; auto.
  now rewrite (cset_match_same cs x y E), IH.
Qed.

(** A pattern read case-insensitively matches all spellings alike. *)
Lemma matches_same r w rest c c' :
  Matches true r w rest c c' ->
  forall w2 rest2 d,
    same_up_to_case w w2 -> same_up_to_case rest rest2 ->
    exists d', Matches true r w2 rest2 d d'.
Proof.
  induction 1; intros wb restb d Hw Hr.
  - inversion Hw; subst. eexists. constructor.
  - inversion Hw as [|x' y l l' E Hl]; subst. inversion Hl; subst.
    eexists. constructor. now rewrite <- (cset_match_same cs x y E).
  - apply Forall2_app_inv_l in Hw as (a & b & Ha & Hb & ->).
    destruct (IHMatches1 a (b ++ restb) d Ha (Forall2_app Hb Hr)) as [d1 M1].
    destruct (IHMatches2 b restb d1 Hb Hr) as [d2 M2].
    exists d2. econstructor; eauto.
  - destruct (IHMatches wb restb d Hw Hr) as [d' M]. exists d'. now apply MAltL.
  - destruct (IHMatches wb restb d Hw Hr) as [d' M]. exists d'. now apply MAltR.
  - exists d. constructor.
    + now rewrite <- (forallb_same cs w wb Hw).
    + now rewrite <- (Forall2_length Hw).
    + intros h Hh. rewrite <- (Forall2_length Hw). auto.
  - destruct (IHMatches wb restb d Hw Hr) as [d' M].
    eexists. constructor. exact M.
  - inversion Hw; subst. exists d. constructor.
    now rewrite <- (at_end_same rest restb Hr).
Qed.

Lemma matches_at_same r s s2 :
  same_up_to_case s s2 -> matches_at true r s -> matches_at true r s2.
Proof.
  intros Hs (w & rest & c & -> & M).
  apply Forall2_app_inv_l in Hs as (w2 & rest2 & Hw & Hr & ->).
  destruct (matches_same r w rest [] c M w2 rest2 [] Hw Hr) as [d' M2].
  exists w2, rest2, d'. auto.
Qed.

Lemma no_match_same r s s2 :
  same_up_to_case s s2 -> no_match true r s -> no_match true r s2.
Proof.
  intros Hs Hn pre2 suf2 E Hm. subst s2.
  apply same_sym in Hs.
  apply Forall2_app_inv_l in Hs as (pre & suf & Hp & Hsuf & ->).
  apply (Hn pre suf eq_refl).
  eapply matches_at_same; [|exact Hm]. exact Hsuf.
Qed.
End CaseFacts.



Module LazyFacts.
Import Re NameStop.

(** Lazy repetition tries the continuation before it takes a character. *)
Lemma rep_lazy_cases ic R cs lo hi s (k : str -> str -> option R) res :
  rep ic false cs lo hi s k = Some res ->
  (lo = 0 /\ k [] s = Some res)
  \/ ((lo = 0 -> k [] s = None) /\
      exists x s', s = x :: s' /\
        rep ic false cs (Nat.pred lo) (option_map Nat.pred hi) s'
          (fun w rest => k (x :: w) rest) = Some res).
Proof.
  intros H. destruct s as [|x s']; simpl in H.
  - destruct lo; [|discriminate].
    destruct (k [] []) eqn:E; [left; auto | discriminate].
  - destruct lo.
    + destruct (k [] (x :: s')) eqn:E0; [left; auto|].
      destruct (_ && _); [|discriminate].
      right. split; auto. exists x, s'. auto.
    + destruct (_ && _); [|discriminate].
      right. split; [discriminate|]. exists x, s'. auto.
Qed.

(** A lazy repetition stops at the first admissible point at which the
    continuation succeeds. *)
Lemma rep_lazy_first ic R cs s : forall lo hi (k : str -> str -> option R) res,
  rep ic false cs lo hi s k = Some res ->
  exists w rest,
    s = w ++ rest /\ k w rest = Some res /\ lo <= List.length w /\
    forall w1 w2, w = w1 ++ w2 -> w2 <> [] -> lo <= List.length w1 ->
                  k w1 (w2 ++ rest) = None.
Proof.
  induction s as [|x s IH]; intros lo hi k res H;
    apply rep_lazy_cases in H as [[-> H] | [H0 (y & t & E & H)]].
  - exists [], []. repeat split; auto.
    intros w1 w2 E. symmetry in E. apply app_eq_nil in E as [_ ->]. congruence.
  - discriminate.
  - exists [], (x :: s). repeat split; auto.
    intros w1 w2 E. symmetry in E. apply app_eq_nil in E as [_ ->]. congruence.
  - inversion E; subst y t; clear E.
    apply IH in H as (w & rest & -> & Hk & Hlen & Hmin).
    exists (x :: w), rest. repeat split; auto.
    + simpl. lia.
    + intros w1 w2 E Hw2 Hlo. destruct w1 as [|z w1]; simpl in *.
      * subst w2. apply H0. lia.
      * inversion E; subst z w. apply (Hmin w1 w2 eq_refl Hw2). lia.
Qed.

(** Literal characters match every spelling of theirs. *)
Lemma chars_match l : forall w rest c,
  map lower w = map lower l -> Matches true (chars l) w rest c c.
Proof.
  induction l as [|a l IH]; intros w rest c E.
  - destruct w; [constructor | discriminate].
  - destruct w as [|x w]; [discriminate|]. simpl in E. inversion E as [[Ex Ew]].
    destruct l as [|b l].
    + destruct w; [|discriminate]. constructor.
      rewrite NameFacts.cset_match_one. unfold same_letter. rewrite Ex.
      apply Ascii.eqb_refl.
    + change (chars (a :: b :: l)) with (Seq (Chr (one a)) (chars (b :: l))).
      change (x :: w) with ([x] ++ w). econstructor.
      * constructor. rewrite NameFacts.cset_match_one. unfold same_letter.
        rewrite Ex. apply Ascii.eqb_refl.
      * apply IH. exact Ew.
Qed.

Lemma stop_matches s : matches_at true name_stop s <-> stops_before s.
Proof.
  split.
  - intros (w & rest & c & -> & M). unfold name_stop in M.
    apply NameFacts.inv_alt in M as [M|M];
      apply NameFacts.inv_seq in M as (sp & t & c1 & -> & Msp & M);
      apply NameFacts.inv_rep in Msp as (_ & Fsp & _);
      rewrite NameFacts.forallb_space in Fsp;
      exists sp, (t ++ rest); rewrite <- app_assoc; repeat split; auto.
    + left. apply NameFacts.matches_chars in M as [_ E].
      assert (L : List.length t = 3)
        by (apply (f_equal (@List.length ascii)) in E; now rewrite length_map in E).
      rewrite firstn_app, L, Nat.sub_diag, firstn_all2 by lia. simpl.
      now rewrite app_nil_r.
    + right. apply NameFacts.inv_eos in M as (-> & _ & He). exact He.
  - intros (sp & t & -> & Fsp & [Hf|He]).
    + exists (sp ++ firstn 3 t), (skipn 3 t), [].
      split; [now rewrite <- app_assoc, firstn_skipn|].
      apply MAltL. econstructor.
      * constructor; [now rewrite NameFacts.forallb_space | lia | discriminate].
      * apply chars_match. exact Hf.
    + exists (sp ++ []), t, []. split; [now rewrite app_nil_r|].
      apply MAltR. econstructor.
      * constructor; [now rewrite NameFacts.forallb_space | lia | discriminate].
      * now constructor.
Qed.

Lemma search_from_at ic r s : forall pos m,
  search_from ic r pos s = Some m ->
  exists pre suf,
    s = pre ++ suf /\ match_at ic r suf = Some (m_whole m, m_caps m).
Proof.
  induction s as [|x s IH]; intros pos m H; simpl in H.
  - destruct (match_at ic r []) as [[w c]|] eqn:E; [|discriminate].
    inversion H; subst; simpl. exists [], []. auto.
  - destruct (match_at ic r (x :: s)) as [[w c]|] eqn:E.
    + inversion H; subst; simpl. exists [], (x :: s). auto.
    + apply IH in H as (pre & suf & -> & H). exists (x :: pre), suf. auto.
Qed.
End LazyFacts.

Module CutFacts.
Import Re NameStop.

Lemma run_seq ic R r1 r2 s c (k : cont R) :
  run ic (Seq r1 r2) s c k
  = run ic r1 s c (fun w1 s1 c1 =>
      run ic r2 s1 c1 (fun w2 s2 c2 => k (w1 ++ w2) s2 c2)).
Proof. reflexivity. Qed.

Lemma run_lazy_group ic R n lo hi cs s c (k : cont R) :
  run ic (Grp n (Rep false lo hi cs)) s c k
  = rep ic false cs lo hi s (fun w rest => k w rest ((n, w) :: c)).
Proof. reflexivity. Qed.

Lemma stop_keeps_captures w rest c c' :
  Matches true name_stop w rest c c' -> c' = c.
Proof.
  unfold name_stop. intros M.
  apply NameFacts.inv_alt in M as [M|M];
    apply NameFacts.inv_seq in M as (sp & t & c1 & -> & Msp & M);
    apply NameFacts.inv_rep in Msp as (-> & _).
  - now apply NameFacts.matches_chars in M as [-> _].
  - now apply NameFacts.inv_eos in M as (_ & -> & _).
Qed.

Lemma matches_any_captures ic r w rest c c' :
  Matches ic r w rest c c' -> forall d, exists d', Matches ic r w rest d d'.
Proof.
  induction 1; intros d; try (eexists; constructor; eassumption).
  - destruct (IHMatches1 d) as [d1 M1]. destruct (IHMatches2 d1) as [d2 M2].
    exists d2. econstructor; eauto.
  - destruct (IHMatches d) as [d' M]. exists d'. now apply MAltL.
  - destruct (IHMatches d) as [d' M]. exists d'. now apply MAltR.
  - destruct (IHMatches d) as [d' M]. eexists. constructor. exact M.
Qed.

(** How the customer-name pattern matched, with the choice the lazy
    repetition made. *)
Lemma clean_name_first_stop suf whole caps :
  match_at true Patterns.clean_name suf = Some (whole, caps) ->
  exists label ws g rest,
    suf = label ++ ws ++ g ++ rest /\
    caps = [(1, g)] /\
    map lower label = lit "name" /\
    ws <> [] /\ forallb is_space ws = true /\ g <> [] /\
    stops_before rest /\
    forall g1 g2, g = g1 ++ g2 -> g1 <> [] -> g2 <> [] ->
                  ~ stops_before (g2 ++ rest).
Proof.
  unfold match_at. rewrite NameFacts.clean_name_unfold. intros H.
  rewrite run_seq in H.
  apply ReFacts.run_sound in H as (label & rest1 & c1 & -> & Ml & H).
  apply NameFacts.matches_chars in Ml as [-> El].
  rewrite run_seq in H.
  apply ReFacts.run_sound in H as (ws & rest2 & c2 & -> & Mws & H).
  apply NameFacts.inv_rep in Mws as (-> & Fws & Lws & _).
  rewrite NameFacts.forallb_space in Fws.
  rewrite run_seq in H. unfold plus_lazy in H. rewrite run_lazy_group in H.
  apply LazyFacts.rep_lazy_first in H as (g & rest & -> & Hk & Lg & Hmin).
  apply ReFacts.run_sound in Hk as (w4 & rest4 & c4 & -> & Mstop & Hk).
  fold name_stop in Mstop, Hmin.
  pose proof (stop_keeps_captures _ _ _ _ Mstop) as ->.
  inversion Hk; subst whole caps; clear Hk.
  exists label, ws, g, (w4 ++ rest4). repeat split; auto.
  - now apply NameFacts.nonempty_of_length.
  - now apply NameFacts.nonempty_of_length.
  - apply LazyFacts.stop_matches.
    destruct (matches_any_captures _ _ _ _ _ _ Mstop []) as [d' M'].
    exists w4, rest4, d'. auto.
  - intros g1 g2 -> Hg1 Hg2 Hstop.
    apply LazyFacts.stop_matches in Hstop as (w & rest & c & E & M).
    assert (L1 : 1 <= List.length g1) by (destruct g1; simpl; [congruence | lia]).
    specialize (Hmin g1 g2 eq_refl Hg2 L1). rewrite E in Hmin.
    revert Hmin. eapply ReFacts.run_complete; [exact M|]. discriminate.
Qed.
End CutFacts.

(** X18. The customer name is cut at the first stop: the name pattern
    matched NAME, white space and the name, and what follows the name is a
    stop (optional white space, then FAX in any case or the end of the
    input); no stop follows an earlier, non-empty part of the name. *)
Theorem customer_name_cut_at_first_stop (text name : str) :
  clean_customer_name text = Ret (Some name) ->
  exists pre label ws g rest,
    text = pre ++ label ++ ws ++ g ++ rest /\
    map lower label = lit "name" /\
    ws <> [] /\ forallb is_space ws = true /\ g <> [] /\
    name = strip g /\
    NameStop.stops_before rest /\
    forall g1 g2, g = g1 ++ g2 -> g1 <> [] -> g2 <> [] ->
                  ~ NameStop.stops_before (g2 ++ rest).
Proof.
  unfold clean_customer_name.
  destruct (Re.search true Patterns.clean_name text) as [m|] eqn:Hs;
    [|discriminate].
  pose proof (ReFacts.search_from_some _ _ _ _ _ Hs)
    as (_ & _ & _ & _ & _ & Hn & _).
  apply LazyFacts.search_from_at in Hs as (pre & suf & -> & Hm).
  apply CutFacts.clean_name_first_stop in Hm
    as (label & ws & g & rest & -> & Ec & El & Hws & Fws & Hg & Hstop & Hmin).
  unfold group. rewrite Hn, Ec. cbn.
  intros E. inversion E; subst name.
  exists pre, label, ws, g, rest. repeat split; auto.
Qed.

Lemma customer_name_cut_at_first_stop_witness :
  exists pre label ws g rest,
    lit "Name  A FAX B FAX" = pre ++ label ++ ws ++ g ++ rest /\
    map lower label = lit "name" /\
    ws <> [] /\ forallb is_space ws = true /\ g <> [] /\
    lit "A" = strip g /\
    NameStop.stops_before rest /\
    forall g1 g2, g = g1 ++ g2 -> g1 <> [] -> g2 <> [] ->
                  ~ NameStop.stops_before (g2 ++ rest).
Proof.
  apply (customer_name_cut_at_first_stop (lit "Name  A FAX B FAX") (lit "A")).
  vm_compute. reflexivity.
Defined.

Module GreedyFacts.
Import Re Greedy.

(** An unbounded greedy repetition before a continuation that cannot fail
    takes every character it can. *)
Lemma rep_greedy_longest R cs s : forall lo (k : str -> str -> option R) res,
  (forall w rest, k w rest <> None) ->
  rep true true cs lo None s k = Some res ->
  exists w rest,
    s = w ++ rest /\ k w rest = Some res /\ lo <= List.length w /\
    forallb (cset_match true cs) w = true /\ ends_run cs rest = true.
Proof.
  induction s as [|x s IH]; intros lo k res Hk H.
  - simpl in H. destruct lo; [|discriminate].
    exists [], []. repeat split; auto.
  - simpl in H. destruct (cset_match true cs x) eqn:X.
    + simpl in H.
      destruct (rep true true cs (Nat.pred lo) None s (fun w rest => k (x :: w) rest))
        as [r|] eqn:E.
      * inversion H; subst r.
        apply IH in E as (w & rest & -> & Hw & Hl & Fw & He); [|intros; apply Hk].
        exists (x :: w), rest. simpl. rewrite X, Fw. repeat split; auto. lia.
      * exfalso. destruct lo as [|[|lo]].
        -- revert E. apply ReFacts.rep_stop. apply Hk.
        -- revert E. apply ReFacts.rep_stop. apply Hk.
        -- discriminate.
    + simpl in H. destruct lo; [|discriminate].
      exists [], (x :: s). simpl. rewrite X. repeat split; auto.
Qed.

Lemma customer_name_unfold :
  Patterns.customer_name
  = Seq (text "NAME") (Seq (plus space) (Grp 1 (plus Patterns.name_char))).
Proof. reflexivity. Qed.

Lemma run_greedy_group ic R n lo hi cs s c (k : cont R) :
  run ic (Grp n (Rep true lo hi cs)) s c k
  = rep ic true cs lo hi s (fun w rest => k w rest ((n, w) :: c)).
Proof. reflexivity. Qed.

Lemma customer_name_longest suf whole caps :
  match_at true Patterns.customer_name suf = Some (whole, caps) ->
  exists label ws g rest,
    suf = label ++ ws ++ g ++ rest /\
    caps = [(1, g)] /\
    map lower label = lit "name" /\
    ws <> [] /\ forallb is_space ws = true /\ g <> [] /\
    forallb (cset_match true Patterns.name_char) g = true /\
    ends_run Patterns.name_char rest = true.
Proof.
  unfold match_at. rewrite customer_name_unfold. intros H.
  rewrite CutFacts.run_seq in H.
  apply ReFacts.run_sound in H as (label & rest1 & c1 & -> & Ml & H).
  apply NameFacts.matches_chars in Ml as [-> El].
  rewrite CutFacts.run_seq in H.
  apply ReFacts.run_sound in H as (ws & rest2 & c2 & -> & Mws & H).
  apply NameFacts.inv_rep in Mws as (-> & Fws & Lws & _).
  rewrite NameFacts.forallb_space in Fws.
  unfold plus in H. rewrite run_greedy_group in H.
  apply rep_greedy_longest in H as (g & rest & -> & Hk & Lg & Fg & He);
    [|discriminate].
  inversion Hk; subst whole caps.
  exists label, ws, g, rest. repeat split; auto using NameFacts.nonempty_of_length.
Qed.

Lemma letters_class x :
  cset_match true (cls [CRange "A" "Z"]) x = is_letter x.
Proof.
  revert x.
  CharFacts.by_cases
    (fun x => Bool.eqb (cset_match true (cls [CRange "A" "Z"]) x) (is_letter x)).
  now apply Bool.eqb_prop.
Qed.

Lemma letter_not_space x : is_letter x = true -> is_space x = false.
Proof.
  revert x. CharFacts.by_cases (fun x => implb (is_letter x) (negb (is_space x))).
  intros L. rewrite L in H. now apply negb_true_iff.
Qed.

Lemma is_blank_char w rest c c' :
  Matches true (Re.text " ") w rest c c' -> w = [" "%char].
Proof.
  intros M. apply NameFacts.matches_chars in M as [_ E].
  destruct w as [|x [|y w]]; try discriminate.
  simpl in E. inversion E as [E1]. f_equal. revert E1. clear. revert x.
  CharFacts.by_cases (fun x => implb (Ascii.eqb (lower x) " ") (Ascii.eqb x " ")).
  intros E. change (lower " "%char) with " "%char in E. rewrite E in H.
  now apply Ascii.eqb_eq.
Qed.
Lemma strip_ends c t y r :
  is_space c = false -> is_space y = false -> rev (c :: t) = y :: r ->
  strip (c :: t) = c :: t.
Proof.
  intros Hc Hy R. unfold strip. cbn [lstrip]. rewrite Hc.
  unfold rstrip. rewrite R. cbn [lstrip]. rewrite Hy.
  rewrite <- R. apply rev_involutive.
Qed.
End GreedyFacts.

(** X19. The customer name stored by [process_pdf] is not cut at FAX: its
    pattern takes every following letter, digit, underscore, comma,
    ampersand and white space, up to the first other character or the end
    of the text, and the value is that run stripped. *)
Theorem record_customer_name_takes_whole_run (text v : str) :
  extract_value text Patterns.customer_name = Ret (Some v) ->
  exists pre label ws g rest,
    text = pre ++ label ++ ws ++ g ++ rest /\
    map lower label = lit "name" /\
    ws <> [] /\ forallb is_space ws = true /\ g <> [] /\
    forallb (Re.cset_match true Patterns.name_char) g = true /\
    Greedy.ends_run Patterns.name_char rest = true /\
    v = strip g.
Proof.
  unfold extract_value.
  destruct (Re.search true Patterns.customer_name text) as [m|] eqn:Hs;
    [|discriminate].
  pose proof (ReFacts.search_from_some _ _ _ _ _ Hs)
    as (_ & _ & _ & _ & _ & Hn & _).
  apply LazyFacts.search_from_at in Hs as (pre & suf & -> & Hm).
  apply GreedyFacts.customer_name_longest in Hm
    as (label & ws & g & rest & -> & Ec & El & Hws & Fws & Hg & Fg & He).
  unfold group. rewrite Hn, Ec. cbn.
  intros E. inversion E; subst v.
  exists pre, label, ws, g, rest. repeat split; auto.
Qed.

Lemma record_customer_name_takes_whole_run_witness :
  exists pre label ws g rest,
    lit "NAME J SMITH FAX 011-555" = pre ++ label ++ ws ++ g ++ rest /\
    map lower label = lit "name" /\
    ws <> [] /\ forallb is_space ws = true /\ g <> [] /\
    forallb (Re.cset_match true Patterns.name_char) g = true /\
    Greedy.ends_run Patterns.name_char rest = true /\
    lit "J SMITH FAX 011" = strip g.
Proof.
  apply (record_customer_name_takes_whole_run (lit "NAME J SMITH FAX 011-555")
           (lit "J SMITH FAX 011")).
  vm_compute. reflexivity.
Defined.


